(** * ConversationRelay bridge: session engine and session registry

    A shallow embedding of [src/session.ts] (the per-connection
    [ConversationRelaySession]), [src/routes/ws.ts] (the WebSocket route that
    wires a session to its connection and to the registry) and
    [src/hooks/sessions.ts] (the [getActiveSession] resolver), followed by
    theorems about them.

    Conventions of the embedding.
    - Run-time values are JavaScript values: the TypeScript annotations are
      erased, as they are when the program runs.  Objects keep their
      properties in the order [JSON.stringify] and the spread syntax
      enumerate them.
    - [number] is restricted to integers, printed in decimal.
    - [async] functions are sequential computations in a state and exception
      monad; [await e] is sequencing, a rejected promise is a thrown value.
      This is the listener of one frame left to run until it settles; the
      listener cut at its awaits, for frames that arrive while an earlier
      one is suspended, is [start_cut].
    - The overridable [handle*] methods form the class [Behavior]; the
      methods of the base class are its default instance. *)

From Stdlib Require Import ZArith NArith Ascii String List Bool DecimalString.
From stdpp Require Import base option strings gmap.

Set Warnings "-register-all".
Local Open Scope string_scope.

(** ** JavaScript values *)

Inductive JSValue : Type :=
| JUndefined
| JNull
| JBool (b : bool)
| JNum (n : Z)
| JStr (s : string)
| JArr (items : list JSValue)
| JObj (props : list (string * JSValue)).

(** [ToBoolean]: the operand test of [if], [||] and [&&]. *)
Definition truthy (v : JSValue) : bool :=
  match v with
  | JUndefined | JNull => false
  | JBool b => b
  | JNum n => negb (n =? 0)%Z
  | JStr s => negb (String.eqb s EmptyString)
  | JArr _ | JObj _ => true
  end.

Definition nullish (v : JSValue) : bool :=
  match v with
  | JUndefined | JNull => true
  | _ => false
  end.

(** [a || b] and [a ?? b] on already evaluated operands. *)
Definition js_or (a b : JSValue) : JSValue := if truthy a then a else b.
Definition js_coalesce (a b : JSValue) : JSValue := if nullish a then b else a.

(** ** Objects: ordered own enumerable string-keyed properties *)

Definition is_digit (c : ascii) : bool :=
  (48 <=? N_of_ascii c)%N && (N_of_ascii c <=? 57)%N.

Fixpoint digits_value (s : string) (acc : N) : option N :=
  match s with
  | EmptyString => Some acc
  | String c r =>
      if is_digit c
      then digits_value r (10 * acc + (N_of_ascii c - 48))%N
      else None
  end.

(** A property key is an array index when it is the canonical decimal form of
    an integer below [2^32 - 1]; such keys are enumerated first, in ascending
    order, before the other keys in insertion order. *)
Definition array_index (k : string) : option N :=
  match k with
  | EmptyString => None
  | String c r =>
      if (N_of_ascii c =? 48)%N
      then match r with EmptyString => Some 0%N | _ => None end
      else match digits_value k 0 with
           | Some n => if (n <=? 4294967294)%N then Some n else None
           | None => None
           end
  end.

Section Objects.
Context {A : Type}.

Fixpoint obj_get (k : string) (o : list (string * A)) : option A :=
  match o with
  | [] => None
  | (k', v) :: r => if String.eqb k' k then Some v else obj_get k r
  end.

(** Define a named (non index) property: in place when the key exists,
    otherwise after every existing property. *)
Fixpoint set_named (k : string) (v : A) (o : list (string * A))
  : list (string * A) :=
  match o with
  | [] => [(k, v)]
  | (k', v') :: r =>
      if String.eqb k' k then (k, v) :: r else (k', v') :: set_named k v r
  end.

(** Define an index property: in place when the key exists, otherwise at
    its rank among the index keys that open the enumeration. *)
Fixpoint set_index (n : N) (k : string) (v : A) (o : list (string * A))
  : list (string * A) :=
  match o with
  | [] => [(k, v)]
  | (k', v') :: r =>
      if String.eqb k' k then (k, v) :: r
      else match array_index k' with
           | Some n' =>
               if (n <? n')%N then (k, v) :: (k', v') :: r
               else (k', v') :: set_index n k v r
           | None => (k, v) :: (k', v') :: r
           end
  end.

Definition obj_set (k : string) (v : A) (o : list (string * A))
  : list (string * A) :=
  match array_index k with
  | Some n => set_index n k v o
  | None => set_named k v o
  end.

(** [{ ...target, ...source }] once [target] has been copied: every
    property of [source], in its order, is defined on the result. *)
Definition obj_assign (target source : list (string * A))
  : list (string * A) :=
  fold_left (fun acc kv => obj_set (fst kv) (snd kv) acc) source target.

(** An object literal [{ k1: v1, ..., kn: vn }]. *)
Definition obj_literal (props : list (string * A)) : list (string * A) :=
  obj_assign [] props.

Definition obj_keys (o : list (string * A)) : list string := map fst o.
End Objects.

(** ** JSON.stringify *)

Definition dquote : ascii := "034"%char.
Definition backslash : ascii := "092"%char.

Definition hex_digit (n : N) : ascii :=
  if (n <? 10)%N then ascii_of_N (48 + n) else ascii_of_N (87 + n).

(** QuoteJSONString on one code unit. *)
Definition quote_char (c : ascii) : string :=
  let n := N_of_ascii c in
  let esc (x : ascii) := String backslash (String x EmptyString) in
  if (n =? 8)%N then esc "b"%char
  else if (n =? 9)%N then esc "t"%char
  else if (n =? 10)%N then esc "n"%char
  else if (n =? 12)%N then esc "f"%char
  else if (n =? 13)%N then esc "r"%char
  else if (n =? 34)%N then esc dquote
  else if (n =? 92)%N then esc backslash
  else if (n <? 32)%N
       then String backslash
              (String "u" (String "0" (String "0"
                 (String (hex_digit (n / 16)) (String (hex_digit (n mod 16)) EmptyString)))))
       else String c EmptyString.

Fixpoint quote_body (s : string) : string :=
  match s with
  | EmptyString => EmptyString
  | String c r => quote_char c +:+ quote_body r
  end.

Definition quote (s : string) : string :=
  String dquote (quote_body s +:+ String dquote EmptyString).

Definition string_of_Z (n : Z) : string := NilZero.string_of_int (Z.to_int n).

Fixpoint join (sep : string) (l : list string) : string :=
  match l with
  | [] => EmptyString
  | [x] => x
  | x :: r => x +:+ sep +:+ join sep r
  end.

(** [JSON.stringify v]; [None] is the result [undefined].  A property whose
    value serializes to [undefined] is left out of its object, an array
    element that does is printed as [null]. *)
Fixpoint JSON_stringify (v : JSValue) : option string :=
  match v with
  | JUndefined => None
  | JNull => Some "null"
  | JBool true => Some "true"
  | JBool false => Some "false"
  | JNum n => Some (string_of_Z n)
  | JStr s => Some (quote s)
  | JArr items =>
      let fix elements (l : list JSValue) : list string :=
        match l with
        | [] => []
        | x :: r =>
            (match JSON_stringify x with Some s => s | None => "null" end)
              :: elements r
        end in
      Some ("[" +:+ join "," (elements items) +:+ "]")
  | JObj props =>
      let fix members (l : list (string * JSValue)) : list string :=
        match l with
        | [] => []
        | (k, x) :: r =>
            match JSON_stringify x with
            | Some s => (quote k +:+ ":" +:+ s) :: members r
            | None => members r
            end
        end in
      Some ("{" +:+ join "," (members props) +:+ "}")
  end.

(** A template literal hole, [${v}]. *)
Definition template_hole (o : option string) : string :=
  match o with Some s => s | None => "undefined" end.

(** [ToString], used by template literals. *)
Fixpoint to_string (v : JSValue) : string :=
  match v with
  | JUndefined => "undefined"
  | JNull => "null"
  | JBool true => "true"
  | JBool false => "false"
  | JNum n => string_of_Z n
  | JStr s => s
  | JArr items =>
      let fix elements (l : list JSValue) : list string :=
        match l with
        | [] => []
        | x :: r => (if nullish x then EmptyString else to_string x) :: elements r
        end in
      join "," (elements items)
  | JObj _ => "[object Object]"
  end.

(** The own enumerable properties copied by [...v] in an object literal. *)
Fixpoint indexed {A : Type} (i : Z) (l : list A) : list (string * A) :=
  match l with
  | [] => []
  | x :: r => (string_of_Z i, x) :: indexed (i + 1) r
  end.

Fixpoint code_units (s : string) : list JSValue :=
  match s with
  | EmptyString => []
  | String c r => JStr (String c EmptyString) :: code_units r
  end.

Definition own_props (v : JSValue) : list (string * JSValue) :=
  match v with
  | JObj o => o
  | JArr items => indexed 0 items
  | JStr s => indexed 0 (code_units s)
  | _ => []
  end.

(** ** Exceptions and completions *)

Inductive Exn : Type :=
| ErrorObject (name message : string)   (* an [Error] instance *)
| Thrown (v : JSValue).                 (* any other thrown value *)

Inductive Completion (A : Type) : Type :=
| Return (a : A)
| Throw (e : Exn).
Arguments Return {A} a.
Arguments Throw {A} e.

Definition TypeError (message : string) : Exn := ErrorObject "TypeError" message.

(** [v.k] for the keys the program reads ([type], [message], [callSid],
    [CallSid], [id], ...), none of which is a property of a built-in
    prototype: only an object can hold them, and reading them off
    [undefined] or [null] throws. *)
Definition get_prop (v : JSValue) (k : string) : Completion JSValue :=
  match v with
  | JUndefined =>
      Throw (TypeError ("Cannot read properties of undefined (reading '" +:+ k +:+ "')"))
  | JNull =>
      Throw (TypeError ("Cannot read properties of null (reading '" +:+ k +:+ "')"))
  | JObj o => Return (match obj_get k o with Some x => x | None => JUndefined end)
  | _ => Return JUndefined
  end.

(** [v?.k] *)
Definition opt_prop (v : JSValue) (k : string) : JSValue :=
  match v with
  | JObj o => match obj_get k o with Some x => x | None => JUndefined end
  | _ => JUndefined
  end.

(** [(error as Error).message] *)
Definition exn_message (e : Exn) : Completion JSValue :=
  match e with
  | ErrorObject _ message => Return (JStr message)
  | Thrown v => get_prop v "message"
  end.

(** ** The state and exception monad of [async] code *)

Definition M (S A : Type) : Type := S -> Completion A * S.

Definition ret {S A} (a : A) : M S A := fun s => (Return a, s).

Definition bind {S A B} (m : M S A) (k : A -> M S B) : M S B :=
  fun s =>
    match m s with
    | (Return a, s') => k a s'
    | (Throw e, s') => (Throw e, s')
    end.

Definition throw {S A} (e : Exn) : M S A := fun s => (Throw e, s).

(** [try { body } catch (error) { handler }] *)
Definition try_catch {S A} (body : M S A) (handler : Exn -> M S A) : M S A :=
  fun s =>
    match body s with
    | (Return a, s') => (Return a, s')
    | (Throw e, s') => handler e s'
    end.

Definition of_completion {S A} (c : Completion A) : M S A := fun s => (c, s).

Declare Scope js_scope.
Delimit Scope js_scope with js.
Notation "x <- c1 ;; c2" := (bind c1 (fun x => c2))
  (at level 100, c1 at next level, c2 at level 200, right associativity) : js_scope.
Notation "c1 ;; c2" := (bind c1 (fun _ => c2))
  (at level 100, c2 at level 200, right associativity) : js_scope.
Local Open Scope js_scope.

(** ** The connection, the logger and the session record *)

Inductive ReadyState : Type := CONNECTING | OPEN | CLOSING | CLOSED.

(** The [ws] connection as the session uses it: its [readyState] and the
    frames handed to [send], oldest first. *)
Record WebSocket : Type := {
  readyState : ReadyState;
  sent : list string
}.

Inductive Level : Type := LDebug | LInfo | LWarn | LError.

(** A logger is the chain of bindings added by [child]. *)
Definition FastifyBaseLogger : Type := list (list (string * JSValue)).

Record LogEntry : Type := {
  level : Level;
  bindings : FastifyBaseLogger;
  merging : list (string * JSValue);   (* the object argument, [[]] when absent *)
  text : string
}.

(** The session record holds the [Date] taken at construction next to values
    that come from frames. *)
Inductive SessionValue : Type :=
| Date (ms : Z)
| Json (v : JSValue).

Definition Session : Type := list (string * SessionValue).

(** The identity of a [ConversationRelaySession] object held by the registry. *)
Definition Handle : Type := nat.

Inductive SessionIdKey : Type := From | CallSid | SessionId.

(** What one [ConversationRelaySession] can reach: its private connection,
    its logger and session record, the shared [ActiveSessions] map, and the
    lines its loggers have written. *)
Record World : Type := {
  connection : WebSocket;
  logger : FastifyBaseLogger;
  session : Session;
  activeSessions : gmap string Handle;
  logged : list LogEntry
}.

Definition with_connection (c : WebSocket) (w : World) : World :=
  {| connection := c; logger := logger w; session := session w;
     activeSessions := activeSessions w; logged := logged w |}.
Definition with_logger (l : FastifyBaseLogger) (w : World) : World :=
  {| connection := connection w; logger := l; session := session w;
     activeSessions := activeSessions w; logged := logged w |}.
Definition with_session (s : Session) (w : World) : World :=
  {| connection := connection w; logger := logger w; session := s;
     activeSessions := activeSessions w; logged := logged w |}.
Definition with_activeSessions (m : gmap string Handle) (w : World) : World :=
  {| connection := connection w; logger := logger w; session := session w;
     activeSessions := m; logged := logged w |}.
Definition with_logged (l : list LogEntry) (w : World) : World :=
  {| connection := connection w; logger := logger w; session := session w;
     activeSessions := activeSessions w; logged := l |}.

(** [this.logger.<level>(merging, text)] *)
Definition log (lv : Level) (obj : list (string * JSValue)) (msg : string)
  : M World unit :=
  fun w =>
    (Return tt,
     with_logged
       (logged w ++ [{| level := lv; bindings := logger w; merging := obj; text := msg |}])%list
       w).

(** [new ConversationRelaySession(args)], the clock reading [now]. *)
Definition new_session (conn : WebSocket) (log0 : FastifyBaseLogger)
    (sessions : gmap string Handle) (now : Z) : World :=
  {| connection := conn;
     logger := log0;
     session :=
       obj_literal
         [("startTime", Date now);
          ("sessionId", Json (JStr EmptyString));
          ("callSid", Json (JStr EmptyString));
          ("accountSid", Json (JStr EmptyString));
          ("from", Json (JStr EmptyString));
          ("to", Json (JStr EmptyString));
          ("direction", Json (JStr "inbound"));
          ("customParameters", Json (JObj []))];
     activeSessions := sessions;
     logged := [] |}.

(** ** Outbound operations *)

(** [this.connection.send(data)] on an open connection. *)
Definition connection_send (data : string) : M World unit :=
  fun w =>
    (Return tt,
     with_connection
       {| readyState := readyState (connection w);
          sent := (sent (connection w) ++ [data])%list |} w).

(** [send(message)].  The warning interpolates the object itself, hence
    the text [[object Object]]. *)
Definition send (message : list (string * JSValue)) : M World unit :=
  fun w =>
    match readyState (connection w) with
    | OPEN =>
        match JSON_stringify (JObj message) with
        | Some data => connection_send data w
        | None => (Return tt, w)   (* an object never serializes to undefined *)
        end
    | _ =>
        log LWarn []
          ("WebSocket is not open. Message not sent: " +:+ to_string (JObj message) +:+ "1") w
    end.

Definition optional_props (additional : option (list (string * JSValue)))
  : list (string * JSValue) :=
  match additional with Some o => o | None => [] end.

(** The object literals of the five operations; an absent [additional]
    spreads nothing. *)
Definition text_message (token : string) (last : option bool)
    (additional : option (list (string * JSValue))) : list (string * JSValue) :=
  obj_assign
    (obj_literal
       [("type", JStr "text");
        ("token", JStr token);
        ("last", JBool (match last with Some b => b | None => false end))])
    (optional_props additional).

Definition play_message (source : string)
    (additional : option (list (string * JSValue))) : list (string * JSValue) :=
  obj_assign
    (obj_literal [("type", JStr "play"); ("source", JStr source)])
    (optional_props additional).

Definition sendDigits_message (digits : string) : list (string * JSValue) :=
  obj_literal [("type", JStr "sendDigits"); ("digits", JStr digits)].

Definition language_message (lang : list (string * JSValue)) : list (string * JSValue) :=
  obj_assign (obj_literal [("type", JStr "language")]) lang.

Definition end_message (handoffData : option string) : list (string * JSValue) :=
  obj_literal
    [("type", JStr "end");
     ("handoffData", match handoffData with Some d => JStr d | None => JUndefined end)].

(** [sendToken(token, last = false, additional?)] *)
Definition sendToken (token : string) (last : option bool)
    (additional : option (list (string * JSValue))) : M World unit :=
  log LInfo [] ("Sending token " +:+ token) ;;
  send (text_message token last additional).

(** [play(source, additional?)] *)
Definition play (source : string)
    (additional : option (list (string * JSValue))) : M World unit :=
  send (play_message source additional).

(** [sendDigits(digits)] *)
Definition sendDigits (digits : string) : M World unit :=
  send (sendDigits_message digits).


(** [end(handoffData?)] *)
Definition end_ (handoffData : option string) : M World unit :=
  send (end_message handoffData).

(** ** Behavior hooks *)

(** The overridable methods.  An override may do whatever a method of the
    class can: read and write the session record and the logger, send, log,
    throw. *)
Class Behavior : Type := {
  handleSetup : JSValue -> M World unit;
  handlePrompt : JSValue -> M World unit;
  handleInterrupt : JSValue -> M World unit;
  handleDTMF : JSValue -> M World unit;
  handleError : JSValue -> M World unit;
  handleClose : M World unit
}.

Definition handling (lv : Level) (what : string) (message : JSValue) : M World unit :=
  log lv [] ("Handling " +:+ what +:+ " message: " +:+ template_hole (JSON_stringify message)).

(** The methods of [ConversationRelaySession] itself. *)
Definition ConversationRelaySession : Behavior := {|
  handleSetup := handling LDebug "setup";
  handlePrompt := handling LDebug "prompt";
  handleInterrupt := handling LDebug "interrupt";
  handleDTMF := handling LDebug "DTMF";
  handleError := handling LError "error";
  handleClose := log LDebug [] "WebSocket connection closed"
|}.

(** ** The engine, with the calls it makes into user code observed *)

Inductive Callee : Type :=
| OnInitialized      (* the function passed to [start] *)
| HandleSetup | HandlePrompt | HandleInterrupt | HandleDTMF | HandleError
| HandleClose.

Record Call : Type := { callee : Callee; argument : JSValue }.

(** The world together with the calls into user code made so far, oldest
    first.  User code runs on the world only. *)
Definition Engine : Type := (World * list Call)%type.

Definition lift {A} (m : M World A) : M Engine A :=
  fun s =>
    let (r, w') := m (fst s) in (r, (w', snd s)).

(** [await f(arg)] for a piece of user code [f]. *)
Definition invoke (c : Callee) (arg : JSValue) (f : M World unit) : M Engine unit :=
  fun s =>
    let (r, w') := f (fst s) in
    (r, (w', (snd s ++ [{| callee := c; argument := arg |}])%list)).

Definition member (v : JSValue) (k : string) : M Engine JSValue :=
  of_completion (get_prop v k).

Section Engine.
Context (JSON_parse : string -> Completion JSValue).
Context {B : Behavior}.

(** [init(message)] *)
Definition init (message : JSValue) : M Engine unit :=
  lift (fun w =>
          (Return tt,
           with_session
             (obj_assign (obj_assign [] (session w))
                (map (fun kv => (fst kv, Json (snd kv))) (own_props message)))
             w)) ;;
  callSid <- member message "callSid" ;;
  sessionId <- member message "sessionId" ;;
  lift (fun w =>
          (Return tt,
           with_logger
             (logger w ++ [obj_literal [("callSid", callSid); ("sessionId", sessionId)]])%list
             w)) ;;
  invoke HandleSetup message (handleSetup message).

(** The body of the [switch] of the message listener. *)
Definition dispatch (onInitialized : option (JSValue -> M World unit))
    (message type : JSValue) : M Engine unit :=
  let unknown :=
    lift (log LWarn (obj_literal [("type", type)]) "Unknown message type") in
  match type with
  | JStr t =>
      if String.eqb t "setup" then
        match onInitialized with
        | Some f => invoke OnInitialized message (f message)
        | None => ret tt
        end ;;
        init message
      else if String.eqb t "prompt" then
        invoke HandlePrompt message (handlePrompt message)
      else if String.eqb t "interrupt" then
        invoke HandleInterrupt message (handleInterrupt message)
      else if String.eqb t "dtmf" then
        invoke HandleDTMF message (handleDTMF message)
      else if String.eqb t "error" then
        invoke HandleError message (handleError message)
      else unknown
  | _ => unknown
  end.

(** [start(handleSetup?)], identified with the listener it registers for
    [message] events; [data] is the frame.  The parameter the source calls
    [handleSetup] is [onInitialized] here, the method [handleSetup] being a
    different function. *)
Definition start (onInitialized : option (JSValue -> M World unit))
    (data : string) : M Engine unit :=
  try_catch
    (message <- of_completion (JSON_parse data) ;;
     type <- member message "type" ;;
     lift (log LInfo (obj_literal [("messageType", type)]) "Received message") ;;
     dispatch onInitialized message type)
    (fun error =>
       description <- of_completion (exn_message error) ;;
       lift (log LError (obj_literal [("error", description)]) "Error processing message")).

(** [close()] *)
Definition close : M Engine unit :=
  invoke HandleClose JUndefined handleClose.
End Engine.

(** ** The WebSocket route *)

(** The function [wsRoute] passes to [start]: it files the session under the
    key the policy selects, which the template literal turns into a string. *)
Definition register (sessionIdKey : SessionIdKey) (this : Handle) (setup : JSValue)
  : M World unit :=
  key <- of_completion
           (get_prop setup
              (match sessionIdKey with
               | CallSid => "callSid"
               | SessionId => "sessionId"
               | From => "from"
               end)) ;;
  fun w =>
    (Return tt, with_activeSessions (<[to_string key := this]> (activeSessions w)) w).

(** What the connection can emit towards the session. *)
Inductive Event : Type :=
| MessageEvent (data : string)
| CloseEvent.

Section Route.
Context (JSON_parse : string -> Completion JSValue).
Context {B : Behavior}.

(** A started session on its connection: the [message] listener of
    [start(onInitialized)] and a [close] listener that calls [close()]. *)
Definition listeners (onInitialized : option (JSValue -> M World unit)) (ev : Event)
  : M Engine unit :=
  match ev with
  | MessageEvent data => start JSON_parse onInitialized data
  | CloseEvent => close
  end.

(** The listeners [wsRoute] installs: [session.start(...)] with the
    registration, and [() => session.close()]. *)
Definition wsRoute (sessionIdKey : SessionIdKey) (this : Handle) : Event -> M Engine unit :=
  listeners (Some (register sessionIdKey this)).
End Route.

(** Events that arrive one at a time: the listener of each has settled when
    the next is delivered.  The emitter drops the promise a listener
    returns, so the next event is delivered whatever the outcome.  Frames
    that arrive together are delivered by [together], below. *)
Fixpoint emit {E : Type} (listener : E -> M Engine unit) (events : list E) (s : Engine)
  : Engine :=
  match events with
  | [] => s
  | ev :: rest => emit listener rest (snd (listener ev s))
  end.

(** The two ways [close()] comes to run: a call by whoever holds the
    session, and the [close] listener of the route. *)
Inductive CloseTrigger : Type :=
| ExplicitClose
| ConnectionClosed.

Section Triggers.
Context (JSON_parse : string -> Completion JSValue).
Context {B : Behavior}.

Definition trigger_close (onInitialized : option (JSValue -> M World unit))
    (t : CloseTrigger) : M Engine unit :=
  match t with
  | ExplicitClose => close
  | ConnectionClosed => listeners JSON_parse onInitialized CloseEvent
  end.
End Triggers.

(** How many times a piece of user code has been called. *)
Definition callee_eqb (a b : Callee) : bool :=
  match a, b with
  | OnInitialized, OnInitialized | HandleSetup, HandleSetup
  | HandlePrompt, HandlePrompt | HandleInterrupt, HandleInterrupt
  | HandleDTMF, HandleDTMF | HandleError, HandleError
  | HandleClose, HandleClose => true
  | _, _ => false
  end.

Definition calls_to (c : Callee) (trace : list Call) : nat :=
  length (List.filter (fun x => callee_eqb (callee x) c) trace).

(** ** The session resolver *)

(** What [getActiveSession] resolves to: a session, or one of the two empty
    results the code produces. *)
Inductive Answer : Type :=
| ASession (h : Handle)
| AUndefined
| ANull.

(** [activeSessions.get(key)]: every key of the map is a string. *)
Definition map_get (activeSessions : gmap string Handle) (key : JSValue) : Answer :=
  match key with
  | JStr k =>
      match activeSessions !! k with
      | Some h => ASession h
      | None => AUndefined
      end
  | _ => AUndefined
  end.

(** [v.startsWith(prefix)]: only a string has the method. *)
Definition startsWith (v : JSValue) (prefix : string) : Completion bool :=
  match v with
  | JStr s => Return (String.prefix prefix s)
  | JUndefined =>
      Throw (TypeError "Cannot read properties of undefined (reading 'startsWith')")
  | JNull =>
      Throw (TypeError "Cannot read properties of null (reading 'startsWith')")
  | _ => Throw (TypeError "startsWith is not a function")
  end.

Definition and_then {A C} (c : Completion A) (k : A -> Completion C) : Completion C :=
  match c with
  | Return a => k a
  | Throw e => Throw e
  end.

(** [a || e] where evaluating [e] may throw. *)
Definition or_else (a : JSValue) (e : Completion JSValue) : Completion JSValue :=
  if truthy a then Return a else e.

(** The [if (sessionIdKey === "CallSid")] block: [Some] is a [return]. *)
Definition by_callSid (activeSessions : gmap string Handle) (sessionIdKey : SessionIdKey)
    (body : JSValue) : Completion (option Answer) :=
  match sessionIdKey with
  | CallSid =>
      let callSid :=
        js_coalesce
          (js_or (js_or (js_or (opt_prop body "CallSid") (opt_prop body "Sid"))
                    (opt_prop body "callSid"))
             (opt_prop body "sid"))
          (JStr EmptyString) in
      and_then (startsWith callSid "CA") (fun accepted =>
        Return (if accepted then Some (map_get activeSessions callSid) else None))
  | _ => Return None
  end.

(** The [if (sessionIdKey === "SessionId")] block; its third operand is
    [body.id], without the [?.] of the others. *)
Definition by_sessionId (activeSessions : gmap string Handle) (sessionIdKey : SessionIdKey)
    (body : JSValue) : Completion (option Answer) :=
  match sessionIdKey with
  | SessionId =>
      and_then
        (or_else (js_or (opt_prop body "sessionId") (opt_prop body "SessionId"))
           (get_prop body "id"))
        (fun chosen =>
           let sessionId := js_coalesce chosen (JStr EmptyString) in
           and_then (startsWith sessionId "VX") (fun accepted =>
             Return (if accepted then Some (map_get activeSessions sessionId) else None)))
  | _ => Return None
  end.

Definition by_from (activeSessions : gmap string Handle) (body : JSValue) : Answer :=
  let from :=
    js_coalesce (js_or (opt_prop body "From") (opt_prop body "from")) (JStr EmptyString) in
  if truthy from then map_get activeSessions from else ANull.

(** The rest of [getActiveSession] once the explicit key has been found
    missing or empty. *)
Definition from_body (activeSessions : gmap string Handle)
    (sessionIdKey : SessionIdKey) (body : JSValue) : Completion Answer :=
  and_then (by_callSid activeSessions sessionIdKey body) (fun r1 =>
    match r1 with
    | Some a => Return a
    | None =>
        and_then (by_sessionId activeSessions sessionIdKey body) (fun r2 =>
          match r2 with
          | Some a => Return a
          | None => Return (by_from activeSessions body)
          end)
    end).

(** [getActiveSession(sessionId?)] for a request with body [body]. *)
Definition getActiveSession (activeSessions : gmap string Handle)
    (sessionIdKey : SessionIdKey) (body : JSValue) (sessionId : option string)
  : Completion Answer :=
  match sessionId with
  | Some k =>
      if truthy (JStr k) then Return (map_get activeSessions (JStr k))
      else from_body activeSessions sessionIdKey body
  | None => from_body activeSessions sessionIdKey body
  end.

(** ** A JSON decoder for running the engine on concrete frames

    The engine takes its decoder as a parameter and the theorems hold for
    every decoder.  [parse_json] follows the JSON grammar for texts whose
    numbers are integer literals and whose [\u] escapes denote ASCII
    characters; it reports any other text as a syntax error. *)

Definition SyntaxError (message : string) : Exn := ErrorObject "SyntaxError" message.

Definition is_space (c : ascii) : bool :=
  let n := N_of_ascii c in
  (n =? 32)%N || (n =? 9)%N || (n =? 10)%N || (n =? 13)%N.

Fixpoint skip_space (s : string) : string :=
  match s with
  | String c r => if is_space c then skip_space r else s
  | EmptyString => s
  end.

Definition hex_value (c : ascii) : option N :=
  let n := N_of_ascii c in
  if (48 <=? n)%N && (n <=? 57)%N then Some (n - 48)%N
  else if (97 <=? n)%N && (n <=? 102)%N then Some (n - 87)%N
  else if (65 <=? n)%N && (n <=? 70)%N then Some (n - 55)%N
  else None.

Definition unescape (c : ascii) : option ascii :=
  let n := N_of_ascii c in
  if (n =? 34)%N then Some dquote
  else if (n =? 92)%N then Some backslash
  else if (n =? 47)%N then Some "/"%char
  else if (n =? 98)%N then Some (ascii_of_N 8)
  else if (n =? 102)%N then Some (ascii_of_N 12)
  else if (n =? 110)%N then Some (ascii_of_N 10)
  else if (n =? 114)%N then Some (ascii_of_N 13)
  else if (n =? 116)%N then Some (ascii_of_N 9)
  else None.

Definition cons_char (c : ascii) (r : option (string * string)) : option (string * string) :=
  match r with
  | Some (t, rest) => Some (String c t, rest)
  | None => None
  end.

(** The characters of a string literal after its opening quote. *)
Fixpoint parse_chars (s : string) : option (string * string) :=
  match s with
  | EmptyString => None
  | String c r =>
      if (N_of_ascii c =? 34)%N then Some (EmptyString, r)
      else if (N_of_ascii c =? 92)%N then
        match r with
        | String "u" (String h1 (String h2 (String h3 (String h4 r')))) =>
            match hex_value h1, hex_value h2, hex_value h3, hex_value h4 with
            | Some a, Some b, Some c3, Some d =>
                let code := (((a * 16 + b) * 16 + c3) * 16 + d)%N in
                if (code <? 128)%N then cons_char (ascii_of_N code) (parse_chars r')
                else None
            | _, _, _, _ => None
            end
        | String e r' =>
            match unescape e with
            | Some x => cons_char x (parse_chars r')
            | None => None
            end
        | EmptyString => None
        end
      else if (N_of_ascii c <? 32)%N then None
      else cons_char c (parse_chars r)
  end.

Fixpoint take_digits (s : string) : string * string :=
  match s with
  | String c r =>
      if is_digit c then let (d, rest) := take_digits r in (String c d, rest)
      else (EmptyString, s)
  | EmptyString => (EmptyString, s)
  end.

Definition number_follows (rest : string) : bool :=
  match rest with
  | String c _ =>
      let n := N_of_ascii c in (n =? 46)%N || (n =? 101)%N || (n =? 69)%N
  | EmptyString => false
  end.

(** An integer literal: an optional sign, then [0] or a digit string without
    a leading zero. *)
Definition parse_int (s : string) : option (JSValue * string) :=
  let (negative, body) :=
    match s with
    | String "-" r => (true, r)
    | _ => (false, s)
    end in
  let (digits, rest) := take_digits body in
  match digits with
  | EmptyString => None
  | String d more =>
      if (N_of_ascii d =? 48)%N && negb (String.eqb more EmptyString) then None
      else if number_follows rest then None
      else match digits_value digits 0 with
           | Some n => Some (JNum (if negative then - Z.of_N n else Z.of_N n), rest)
           | None => None
           end
  end.

Definition strip_prefix (p s : string) : option string :=
  if String.prefix p s
  then Some (String.substring (String.length p) (String.length s - String.length p) s)
  else None.

Fixpoint parse_value (fuel : nat) (s : string) : option (JSValue * string) :=
  match fuel with
  | O => None
  | S fuel' =>
      match skip_space s with
      | EmptyString => None
      | String c r =>
          if (N_of_ascii c =? 123)%N then
            match skip_space r with
            | String "}" r' => Some (JObj [], r')
            | _ => parse_members fuel' r []
            end
          else if (N_of_ascii c =? 91)%N then
            match skip_space r with
            | String "]" r' => Some (JArr [], r')
            | _ => parse_elements fuel' r []
            end
          else if (N_of_ascii c =? 34)%N then
            match parse_chars r with
            | Some (str, r') => Some (JStr str, r')
            | None => None
            end
          else
            match strip_prefix "true" (String c r), strip_prefix "false" (String c r),
                  strip_prefix "null" (String c r) with
            | Some r', _, _ => Some (JBool true, r')
            | _, Some r', _ => Some (JBool false, r')
            | _, _, Some r' => Some (JNull, r')
            | _, _, _ => parse_int (String c r)
            end
      end
  end
with parse_members (fuel : nat) (s : string) (acc : list (string * JSValue))
  : option (JSValue * string) :=
  match fuel with
  | O => None
  | S fuel' =>
      match skip_space s with
      | String c r =>
          if (N_of_ascii c =? 34)%N then
            match parse_chars r with
            | Some (k, r1) =>
                match skip_space r1 with
                | String ":" r2 =>
                    match parse_value fuel' r2 with
                    | Some (v, r3) =>
                        match skip_space r3 with
                        | String "," r4 => parse_members fuel' r4 (obj_set k v acc)
                        | String "}" r4 => Some (JObj (obj_set k v acc), r4)
                        | _ => None
                        end
                    | None => None
                    end
                | _ => None
                end
            | None => None
            end
          else None
      | EmptyString => None
      end
  end
with parse_elements (fuel : nat) (s : string) (acc : list JSValue)
  : option (JSValue * string) :=
  match fuel with
  | O => None
  | S fuel' =>
      match parse_value fuel' s with
      | Some (v, r1) =>
          match skip_space r1 with
          | String "," r2 => parse_elements fuel' r2 (acc ++ [v])%list
          | String "]" r2 => Some (JArr (acc ++ [v])%list, r2)
          | _ => None
          end
      | None => None
      end
  end.

Definition parse_json (data : string) : Completion JSValue :=
  match parse_value (S (String.length data)) data with
  | Some (v, rest) =>
      match skip_space rest with
      | EmptyString => Return v
      | _ => Throw (SyntaxError "Unexpected non-whitespace character after JSON")
      end
  | None => Throw (SyntaxError "Unexpected token")
  end.

(** ** Predicates used in the statements *)

Fixpoint distinct (keys : list string) : bool :=
  match keys with
  | [] => true
  | k :: r => negb (existsb (String.eqb k) r) && distinct r
  end.

(** The representation invariant of an object: no key occurs twice. *)
Definition is_object {A : Type} (o : list (string * A)) : bool := distinct (obj_keys o).

(** A text between double quotes, for writing expected frames. *)
Definition quoted (s : string) : string :=
  String dquote (s +:+ String dquote EmptyString).

(** An open connection that has sent nothing, and a session on it. *)
Definition open_connection : WebSocket := {| readyState := OPEN; sent := [] |}.
Definition closed_connection : WebSocket := {| readyState := CLOSED; sent := [] |}.

Definition fresh_world : World := new_session open_connection [] ∅ 1700000000000%Z.
Definition fresh_engine : Engine := (fresh_world, []).

(** The fields an extension bag would have to carry to clash with the
    required fields of its message. *)
Definition lacks {A : Type} (keys : list string) (bag : list (string * A)) : bool :=
  forallb (fun k => negb (existsb (String.eqb k) (obj_keys bag))) keys.

(** ** The resolution rule, in words *)

(** The session an answer carries; both empty results are "absent". *)
Definition answer_handle (a : Answer) : option Handle :=
  match a with
  | ASession h => Some h
  | AUndefined | ANull => None
  end.

Definition lookup_key (activeSessions : gmap string Handle) (key : JSValue)
  : option Handle :=
  match key with
  | JStr k => activeSessions !! k
  | _ => None
  end.

Definition accepts (prefix : string) (candidate : JSValue) : bool :=
  match candidate with
  | JStr s => String.prefix prefix s
  | _ => false
  end.

Definition non_empty (v : JSValue) : bool :=
  match v with
  | JStr s => negb (String.eqb s EmptyString)
  | _ => false
  end.

(** "The first present, non-absent value among the fields, defaulting to
    the empty string." *)
Fixpoint first_present (body : JSValue) (fields : list string) : JSValue :=
  match fields with
  | [] => JStr EmptyString
  | f :: r =>
      if nullish (opt_prop body f) then first_present body r else opt_prop body f
  end.

(** The rule as the specification words it: [candidate] is how a value is
    chosen among fields. *)
Definition resolve_with (candidate : JSValue -> list string -> JSValue)
    (activeSessions : gmap string Handle) (policy : SessionIdKey) (body : JSValue)
  : option Handle :=
  let fallback :=
    let from := candidate body ["From"; "from"] in
    if non_empty from then lookup_key activeSessions from else None in
  match policy with
  | CallSid =>
      let callSid := candidate body ["CallSid"; "Sid"; "callSid"; "sid"] in
      if accepts "CA" callSid then lookup_key activeSessions callSid else fallback
  | SessionId =>
      let sessionId := candidate body ["sessionId"; "SessionId"; "id"] in
      if accepts "VX" sessionId then lookup_key activeSessions sessionId else fallback
  | From => fallback
  end.

Definition resolve_spec := resolve_with first_present.

(** The first value among the fields that is truthy - for a string, not
    empty - defaulting to the empty string. *)
Fixpoint pick (values : list JSValue) : JSValue :=
  match values with
  | [] => JStr EmptyString
  | v :: r => if truthy v then v else pick r
  end.

Definition first_truthy (body : JSValue) (fields : list string) : JSValue :=
  pick (map (opt_prop body) fields).

Definition resolve_truthy := resolve_with first_truthy.

(** A payload of the declared type [Record<string, string>]. *)
Definition string_record (o : list (string * JSValue)) : bool :=
  forallb (fun kv => match snd kv with JStr _ => true | _ => false end) o.

(** ** The shape of a setup frame *)

Definition identity_fields : list string :=
  ["callSid"; "sessionId"; "accountSid"; "from"; "to"; "direction"; "customParameters"].

Definition is_string (v : option JSValue) : bool :=
  match v with Some (JStr _) => true | _ => false end.

(** An object of the declared type [SetupMessage]; as at run time, further
    fields are allowed. *)
Definition is_setup_message (o : list (string * JSValue)) : bool :=
  is_object o
  && match obj_get "type" o with
     | Some (JStr t) => String.eqb t "setup"
     | _ => false
     end
  && is_string (obj_get "callSid" o)
  && is_string (obj_get "sessionId" o)
  && is_string (obj_get "accountSid" o)
  && is_string (obj_get "from" o)
  && is_string (obj_get "to" o)
  && match obj_get "direction" o with
     | Some (JStr d) => String.eqb d "inbound" || String.eqb d "outbound"
     | _ => false
     end
  && match obj_get "customParameters" o with
     | Some (JObj params) => is_object params && string_record params
     | _ => false
     end.

(** ** Naming the steps of frame processing *)

Definition call (c : Callee) (arg : JSValue) : Call := {| callee := c; argument := arg |}.

(** The world after [Received message] has been logged for a frame whose
    [type] is [type]. *)
Definition received (type : JSValue) (w : World) : World :=
  snd (log LInfo (obj_literal [("messageType", type)]) "Received message" w).

(** The world after the [catch] block has reported [description]. *)
Definition reported (description : JSValue) (w : World) : World :=
  snd (log LError (obj_literal [("error", description)]) "Error processing message" w).

(** Running the optional function passed to [start], and the call it
    accounts for. *)
Definition run_onInitialized (onInitialized : option (JSValue -> M World unit))
    (message : JSValue) : M World unit :=
  match onInitialized with
  | Some f => f message
  | None => ret tt
  end.

Definition onInitialized_calls (onInitialized : option (JSValue -> M World unit))
    (message : JSValue) : list Call :=
  match onInitialized with
  | Some _ => [call OnInitialized message]
  | None => []
  end.

(** The world in which [init] calls [this.handleSetup]: the message spread
    over the session record, the logger replaced by its child. *)
Definition adopted (o : list (string * JSValue)) (w : World) : World :=
  with_logger
    (logger w
       ++ [obj_literal
             [("callSid", match obj_get "callSid" o with Some x => x | None => JUndefined end);
              ("sessionId", match obj_get "sessionId" o with Some x => x | None => JUndefined end)]])%list
    (with_session
       (obj_assign (obj_assign [] (session w))
          (map (fun kv => (fst kv, Json (snd kv))) o))
       w).

(** The behavior method a frame of type [t] other than [setup] is
    dispatched to. *)
Definition hook_of {B : Behavior} (t : string)
  : option (Callee * (JSValue -> M World unit)) :=
  if String.eqb t "prompt" then Some (HandlePrompt, handlePrompt)
  else if String.eqb t "interrupt" then Some (HandleInterrupt, handleInterrupt)
  else if String.eqb t "dtmf" then Some (HandleDTMF, handleDTMF)
  else if String.eqb t "error" then Some (HandleError, handleError)
  else None.

(** User code that leaves the session record as it found it. *)
Definition keeps_session (f : M World unit) : Prop :=
  forall w, session (snd (f w)) = session w.

(** A behavior whose [handlePrompt] throws. *)
Definition failing_prompt : Behavior := {|
  handleSetup := handling LDebug "setup";
  handlePrompt := fun _ => throw (ErrorObject "Error" "boom");
  handleInterrupt := handling LDebug "interrupt";
  handleDTMF := handling LDebug "DTMF";
  handleError := handling LError "error";
  handleClose := log LDebug [] "WebSocket connection closed"
|}.

(** Frames, written as the tests do with [JSON.stringify]. *)
Definition frame (message : JSValue) : string := template_hole (JSON_stringify message).

Definition setup_message : list (string * JSValue) :=
  [("type", JStr "setup");
   ("callSid", JStr "CA123456");
   ("sessionId", JStr "VX789012");
   ("accountSid", JStr "AC123456");
   ("from", JStr "+1234567890");
   ("to", JStr "+0987654321");
   ("direction", JStr "inbound");
   ("customParameters", JObj [("key", JStr "value")])].

Definition prompt_message : list (string * JSValue) :=
  [("type", JStr "prompt");
   ("voicePrompt", JStr "Hello");
   ("lang", JStr "en");
   ("last", JBool false)].

(** A field of a string record, read with [?.]: a string, or [undefined]
    when the record lacks it. *)
Definition str_or_undef (v : JSValue) : Prop := v = JUndefined \/ exists s, v = JStr s.

(** ** Further notions used in statements *)

(** The [type] values the [switch] of the listener has a case for. *)
Definition known_type (type : JSValue) : bool :=
  match type with
  | JStr t =>
      String.eqb t "setup" || String.eqb t "prompt" || String.eqb t "interrupt"
      || String.eqb t "dtmf" || String.eqb t "error"
  | _ => false
  end.

(** The world after the [default] case has logged its warning. *)
Definition warned (type : JSValue) (w : World) : World :=
  snd (log LWarn (obj_literal [("type", type)]) "Unknown message type" w).

(** The frame types with a behavior method of their own, [setup] apart. *)
Definition plain_hooks {B : Behavior}
  : list (string * Callee * (JSValue -> M World unit)) :=
  [("prompt", HandlePrompt, handlePrompt);
   ("interrupt", HandleInterrupt, handleInterrupt);
   ("dtmf", HandleDTMF, handleDTMF);
   ("error", HandleError, handleError)].

(** A behavior whose [handlePrompt] does [throw undefined]. *)
Definition throwing_undefined : Behavior := {|
  handleSetup := handling LDebug "setup";
  handlePrompt := fun _ => throw (Thrown JUndefined);
  handleInterrupt := handling LDebug "interrupt";
  handleDTMF := handling LDebug "DTMF";
  handleError := handling LError "error";
  handleClose := log LDebug [] "WebSocket connection closed"
|}.

(** The field of the setup message [wsRoute] takes the key from, the body
    fields the resolver reads, and the prefix it asks for, per policy. *)
Definition setup_field (policy : SessionIdKey) : string :=
  match policy with
  | CallSid => "callSid"
  | SessionId => "sessionId"
  | From => "from"
  end.

Definition policy_fields (policy : SessionIdKey) : list string :=
  match policy with
  | CallSid => ["CallSid"; "Sid"; "callSid"; "sid"]
  | SessionId => ["sessionId"; "SessionId"; "id"]
  | From => ["From"; "from"]
  end.

Definition policy_prefix (policy : SessionIdKey) : string :=
  match policy with
  | CallSid => "CA"
  | SessionId => "VX"
  | From => EmptyString
  end.

(** Every method of a behavior leaves the part [part] of the world as it
    found it. *)
Definition hooks_keep {X : Type} (part : World -> X) (B : Behavior) : Prop :=
  (forall m w, part (snd (handleSetup m w)) = part w)
  /\ (forall m w, part (snd (handlePrompt m w)) = part w)
  /\ (forall m w, part (snd (handleInterrupt m w)) = part w)
  /\ (forall m w, part (snd (handleDTMF m w)) = part w)
  /\ (forall m w, part (snd (handleError m w)) = part w)
  /\ (forall w, part (snd (handleClose w)) = part w).

(** Every key filed in the registry of [w] is filed in that of [w']. *)
Definition registry_extends (w w' : World) : Prop :=
  forall k, is_Some (activeSessions w !! k) -> is_Some (activeSessions w' !! k).



(** The key [wsRoute] files a session under: the text of the policy's field
    of the setup message, [undefined] when the message lacks it. *)
Definition registration_key (policy : SessionIdKey) (o : list (string * JSValue)) : string :=
  to_string (match obj_get (setup_field policy) o with Some x => x | None => JUndefined end).

(** The base class methods with the level and the name they log under. *)
Definition base_class_lines : list (string * Callee * Level * string) :=
  [("prompt", HandlePrompt, LDebug, "prompt");
   ("interrupt", HandleInterrupt, LDebug, "interrupt");
   ("dtmf", HandleDTMF, LDebug, "DTMF");
   ("error", HandleError, LError, "error")].


(** ** Payloads the resolver can read *)

(** A field that is absent, [null] or a string. *)
Definition plain_field (v : JSValue) : bool :=
  match v with
  | JUndefined | JNull | JStr _ => true
  | _ => false
  end.

(** The fields of the payload the resolver reads under a policy. *)
Definition scanned_fields (policy : SessionIdKey) : list string :=
  match policy with
  | CallSid => ["CallSid"; "Sid"; "callSid"; "sid"; "From"; "from"]
  | SessionId => ["sessionId"; "SessionId"; "id"; "From"; "from"]
  | From => ["From"; "from"]
  end.

(** Each scanned field of the payload is absent, [null] or a string; the
    payload itself may be anything, absent included, except under policy
    [SessionId], which reads [body.id] off it. *)
Definition resolvable (policy : SessionIdKey) (body : JSValue) : bool :=
  forallb (fun f => plain_field (opt_prop body f)) (scanned_fields policy)
  && match policy with
     | SessionId => negb (nullish body)
     | _ => true
     end.

(** A setup message that carries a [startTime] of its own. *)
Definition dated_setup_message : list (string * JSValue) :=
  (setup_message ++ [("startTime", JNum 5)])%list.

(** ** The listener cut at its awaits

    [connection.on("message", async (data) => ...)] hands the emitter an
    async function: a call runs it up to its first [await] and returns;
    the rest runs from the microtask queue.  User code is a completed step
    of the world when called, so every promise the listener awaits has
    settled and each [await] costs turns of the queue only. *)




Section Cut.
Context (JSON_parse : string -> Completion JSValue).
Context {B : Behavior}.



End Cut.








(** * Properties *)

(** ** The embedding on concrete inputs *)

Example stringify_text :
  JSON_stringify (JObj [("type", JStr "text"); ("n", JNum (-12)); ("u", JUndefined);
                        ("a", JArr [JUndefined; JBool true])])
  = Some ("{" +:+ quoted "type" +:+ ":" +:+ quoted "text" +:+ "," +:+ quoted "n" +:+ ":-12,"
              +:+ quoted "a" +:+ ":[null,true]}").
Proof. reflexivity. Qed.

Example obj_assign_order :
  obj_keys (obj_assign [("type", 1); ("token", 2)] [("lang", 3); ("7", 4); ("type", 5); ("2", 6)])
  = ["2"; "7"; "type"; "token"; "lang"].
Proof. reflexivity. Qed.

Example parse_json_setup :
  parse_json ("{" +:+ quoted "type" +:+ ": " +:+ quoted "setup" +:+ ", " +:+ quoted "n"
                  +:+ ":[1, -20, true,null ,{}] }")
  = Return (JObj [("type", JStr "setup");
                  ("n", JArr [JNum 1; JNum (-20); JBool true; JNull; JObj []])]).
Proof. reflexivity. Qed.

Example parse_json_invalid : parse_json "invalid json" = Throw (SyntaxError "Unexpected token").
Proof. reflexivity. Qed.

Example play_frame :
  sent (connection (snd (play "http://example.com/audio.mp3"
                           (Some [("loop", JNum 3); ("preemptible", JBool true)]) fresh_world)))
  = ["{" +:+ quoted "type" +:+ ":" +:+ quoted "play" +:+ ","
         +:+ quoted "source" +:+ ":" +:+ quoted "http://example.com/audio.mp3" +:+ ","
         +:+ quoted "loop" +:+ ":3," +:+ quoted "preemptible" +:+ ":true}"].
Proof. reflexivity. Qed.

Example end_frames :
  sent (connection (snd (end_ None fresh_world)))
  = ["{" +:+ quoted "type" +:+ ":" +:+ quoted "end" +:+ "}"]
  /\ sent (connection (snd (end_ (Some "handoff-data") fresh_world)))
     = ["{" +:+ quoted "type" +:+ ":" +:+ quoted "end" +:+ ","
            +:+ quoted "handoffData" +:+ ":" +:+ quoted "handoff-data" +:+ "}"].
Proof. split; reflexivity. Qed.

Example send_when_closed :
  let w := snd (sendToken "test" None None
                  (new_session closed_connection [] ∅ 0)) in
  sent (connection w) = []
  /\ map (fun entry => (level entry, text entry)) (logged w)
     = [(LInfo, "Sending token test");
        (LWarn, "WebSocket is not open. Message not sent: [object Object]1")].
Proof. split; reflexivity. Qed.

Example unknown_message_type :
  let run := start (B := ConversationRelaySession) parse_json None
               (frame (JObj [("type", JStr "unknown")])) fresh_engine in
  fst run = Return tt
  /\ snd (snd run) = []
  /\ map (fun entry => (level entry, merging entry, text entry)) (logged (fst (snd run)))
     = [(LInfo, [("messageType", JStr "unknown")], "Received message");
        (LWarn, [("type", JStr "unknown")], "Unknown message type")].
Proof. repeat split. Qed.

Example prompt_is_dispatched :
  snd (snd (start (B := ConversationRelaySession) parse_json None
              (frame (JObj prompt_message)) fresh_engine))
  = [call HandlePrompt (JObj prompt_message)].
Proof. reflexivity. Qed.

Example route_registers_the_session :
  activeSessions
    (fst (emit (wsRoute (B := ConversationRelaySession) parse_json CallSid 1)
            [MessageEvent (frame (JObj setup_message))] fresh_engine))
  !! "CA123456"
  = Some 1.
Proof. vm_compute. reflexivity. Qed.

Example resolver_by_policy :
  getActiveSession {[ "test-session" := 1 ]} CallSid (JObj []) (Some "test-session")
  = Return (ASession 1)
  /\ getActiveSession {[ "CA789012" := 2 ]} CallSid (JObj [("Sid", JStr "CA789012")]) None
     = Return (ASession 2)
  /\ getActiveSession {[ "VX123456" := 3 ]} SessionId (JObj [("SessionId", JStr "VX123456")]) None
     = Return (ASession 3)
  /\ getActiveSession {[ "+0987654321" := 4 ]} CallSid (JObj [("from", JStr "+0987654321")]) None
     = Return (ASession 4)
  /\ getActiveSession ∅ CallSid (JObj [("From", JStr "+1111111111")]) None = Return AUndefined
  /\ getActiveSession ∅ CallSid (JObj [("CallSid", JStr "INVALID123")]) None = Return ANull.
Proof. repeat split; vm_compute; reflexivity. Qed.

(** ** Reading properties of assigned objects *)

Section ObjectFacts.
Context {A : Type}.
Implicit Types (o t s : list (string * A)) (k : string) (v : A).

Lemma set_named_get_eq k v o : obj_get k (set_named k v o) = Some v.
Proof.
  induction o as [|[k' v'] r IH]; simpl.
  - now rewrite String.eqb_refl.
  - destruct (String.eqb k' k) eqn:E; simpl.
    + now rewrite String.eqb_refl.
    + now rewrite E.
Qed.

Lemma set_named_get_ne k k' v o :
  k <> k' -> obj_get k' (set_named k v o) = obj_get k' o.
Proof.
  intros Hne. apply String.eqb_neq in Hne.
  induction o as [|[k1 v1] r IH]; simpl.
  - now rewrite Hne.
  - destruct (String.eqb k1 k) eqn:E; simpl.
    + apply String.eqb_eq in E. subst k1. now rewrite Hne.
    + now rewrite IH.
Qed.

Lemma set_index_get_eq n k v o : obj_get k (set_index n k v o) = Some v.
Proof.
  induction o as [|[k' v'] r IH]; simpl.
  - now rewrite String.eqb_refl.
  - destruct (String.eqb k' k) eqn:E; simpl.
    + now rewrite String.eqb_refl.
    + destruct (array_index k') as [n'|]; [destruct (n <? n')%N|]; simpl;
        rewrite ?String.eqb_refl, ?E; auto.
Qed.

Lemma set_index_get_ne n k k' v o :
  k <> k' -> obj_get k' (set_index n k v o) = obj_get k' o.
Proof.
  intros Hne. apply String.eqb_neq in Hne.
  induction o as [|[k1 v1] r IH]; simpl.
  - now rewrite Hne.
  - destruct (String.eqb k1 k) eqn:E; simpl.
    + apply String.eqb_eq in E. subst k1. now rewrite Hne.
    + destruct (array_index k1) as [n'|]; [destruct (n <? n')%N|]; simpl;
        rewrite ?Hne, ?IH; auto.
Qed.

Lemma obj_get_set_eq k v o : obj_get k (obj_set k v o) = Some v.
Proof.
  unfold obj_set. destruct (array_index k).
  - apply set_index_get_eq.
  - apply set_named_get_eq.
Qed.

Lemma obj_get_set_ne k k' v o :
  k <> k' -> obj_get k' (obj_set k v o) = obj_get k' o.
Proof.
  intros Hne. unfold obj_set. destruct (array_index k).
  - now apply set_index_get_ne.
  - now apply set_named_get_ne.
Qed.

Lemma obj_get_absent k s :
  existsb (String.eqb k) (obj_keys s) = false -> obj_get k s = None.
Proof.
  induction s as [|[k1 v1] r IH]; simpl; [easy|].
  intros H. apply orb_false_iff in H as [H1 H2].
  rewrite String.eqb_sym in H1. rewrite H1. now apply IH.
Qed.

(** A key the source lacks keeps the target's value. *)
Lemma obj_get_assign_absent k s : forall t,
  obj_get k s = None -> obj_get k (obj_assign t s) = obj_get k t.
Proof.
  unfold obj_assign.
  induction s as [|[k1 v1] r IH]; simpl; intros t H; [easy|].
  destruct (String.eqb k1 k) eqn:E; [discriminate|].
  rewrite IH by assumption.
  apply obj_get_set_ne. now apply String.eqb_neq.
Qed.

(** A key the source has takes the source's value. *)
Lemma obj_get_assign_present k v s : forall t,
  is_object s = true -> obj_get k s = Some v ->
  obj_get k (obj_assign t s) = Some v.
Proof.
  unfold obj_assign, is_object.
  induction s as [|[k1 v1] r IH]; simpl; intros t Hd H; [discriminate|].
  apply andb_true_iff in Hd as [Hfresh Hd].
  destruct (String.eqb k1 k) eqn:E.
  - apply String.eqb_eq in E. subst k1. injection H as ->.
    apply negb_true_iff in Hfresh.
    pose proof (obj_get_assign_absent k r (obj_set k v t) (obj_get_absent k r Hfresh)) as Hk.
    unfold obj_assign in Hk. rewrite Hk. apply obj_get_set_eq.
  - now apply IH.
Qed.

Lemma obj_get_assign k s t :
  is_object s = true ->
  obj_get k (obj_assign t s)
  = match obj_get k s with Some v => Some v | None => obj_get k t end.
Proof.
  intros Hd. destruct (obj_get k s) as [v|] eqn:E.
  - now apply obj_get_assign_present.
  - now apply obj_get_assign_absent.
Qed.

Lemma obj_get_map {C : Type} (f : A -> C) k o :
  obj_get k (map (fun kv => (fst kv, f (snd kv))) o) = option_map f (obj_get k o).
Proof.
  induction o as [|[k1 v1] r IH]; simpl; [easy|].
  now destruct (String.eqb k1 k).
Qed.

Lemma obj_keys_map {C : Type} (f : A -> C) o :
  obj_keys (map (fun kv => (fst kv, f (snd kv))) o) = obj_keys o.
Proof.
  unfold obj_keys. induction o as [|[k1 v1] r IH]; simpl; [easy|]. now rewrite IH.
Qed.
End ObjectFacts.

(** ** Outbound frames *)

Lemma send_open message w :
  readyState (connection w) = OPEN ->
  send message w
  = (Return tt,
     with_connection
       {| readyState := OPEN;
          sent := (sent (connection w)
                     ++ [template_hole (JSON_stringify (JObj message))])%list |} w).
Proof.
  intros Hopen. unfold send. rewrite Hopen. simpl. unfold connection_send.
  now rewrite Hopen.
Qed.

Lemma sendToken_open token last additional w :
  readyState (connection w) = OPEN ->
  sent (connection (snd (sendToken token last additional w)))
  = (sent (connection w)
       ++ [template_hole (JSON_stringify (JObj (text_message token last additional)))])%list.
Proof.
  intros Hopen. unfold sendToken, bind, log. simpl.
  rewrite send_open by exact Hopen. reflexivity.
Qed.

(** C6. On an open connection [sendToken("hello")] hands the connection
    exactly the text [{"type":"text","token":"hello","last":false}],
    [sendToken("world", true)] the same with [world] and [true], and an
    additional bag is merged into the serialized object: each of its fields
    is a field of the object sent, as with [{lang:"en"}]. *)
Theorem sendToken_frames (w : World) :
  readyState (connection w) = OPEN ->
  sent (connection (snd (sendToken "hello" None None w)))
  = (sent (connection w)
       ++ ["{" +:+ quoted "type" +:+ ":" +:+ quoted "text" +:+ ","
               +:+ quoted "token" +:+ ":" +:+ quoted "hello" +:+ ","
               +:+ quoted "last" +:+ ":false}"])%list
  /\ sent (connection (snd (sendToken "world" (Some true) None w)))
     = (sent (connection w)
          ++ ["{" +:+ quoted "type" +:+ ":" +:+ quoted "text" +:+ ","
                  +:+ quoted "token" +:+ ":" +:+ quoted "world" +:+ ","
                  +:+ quoted "last" +:+ ":true}"])%list
  /\ sent (connection (snd (sendToken "hello" None (Some [("lang", JStr "en")]) w)))
     = (sent (connection w)
          ++ ["{" +:+ quoted "type" +:+ ":" +:+ quoted "text" +:+ ","
                  +:+ quoted "token" +:+ ":" +:+ quoted "hello" +:+ ","
                  +:+ quoted "last" +:+ ":false,"
                  +:+ quoted "lang" +:+ ":" +:+ quoted "en" +:+ "}"])%list
  /\ forall token last bag,
       sent (connection (snd (sendToken token last (Some bag) w)))
       = (sent (connection w)
            ++ [template_hole (JSON_stringify (JObj (text_message token last (Some bag))))])%list
       /\ (is_object bag = true ->
           forall k v, obj_get k bag = Some v ->
                       obj_get k (text_message token last (Some bag)) = Some v).
Proof.
  intros Hopen. repeat split.
  - now rewrite sendToken_open.
  - now rewrite sendToken_open.
  - now rewrite sendToken_open.
  - now apply sendToken_open.
  - intros Hobj k v Hk. unfold text_message. simpl optional_props.
    now apply obj_get_assign_present.
Qed.

Lemma sendToken_frames_witness :
  sent (connection (snd (sendToken "hello" None None fresh_world)))
  = ["{" +:+ quoted "type" +:+ ":" +:+ quoted "text" +:+ ","
         +:+ quoted "token" +:+ ":" +:+ quoted "hello" +:+ ","
         +:+ quoted "last" +:+ ":false}"].
Proof.
  exact (proj1 (sendToken_frames fresh_world eq_refl)).
Defined.

Lemma lacks_get {A : Type} (keys : list string) (bag : list (string * A)) k :
  lacks keys bag = true -> In k keys -> obj_get k bag = None.
Proof.
  unfold lacks. rewrite forallb_forall. intros H Hin.
  apply obj_get_absent. apply negb_true_iff. now apply H.
Qed.

(** C7, as the code has it.  The bag is spread after the required fields.
    For every outbound operation, a bag with no field named [type] (nor
    [token] for [sendToken], [source] for [play]) - the names its declared
    type omits - leaves the discriminant and the variant-defining field of
    the message as the operation set them; [sendDigits] and [end] take no
    bag. *)
Theorem required_fields_kept :
  (forall token last bag,
      lacks ["type"; "token"] (optional_props bag) = true ->
      obj_get "type" (text_message token last bag) = Some (JStr "text")
      /\ obj_get "token" (text_message token last bag) = Some (JStr token))
  /\ (forall source bag,
         lacks ["type"; "source"] (optional_props bag) = true ->
         obj_get "type" (play_message source bag) = Some (JStr "play")
         /\ obj_get "source" (play_message source bag) = Some (JStr source))
  /\ (forall lang,
         lacks ["type"] lang = true ->
         obj_get "type" (language_message lang) = Some (JStr "language"))
  /\ (forall digits,
         obj_get "type" (sendDigits_message digits) = Some (JStr "sendDigits"))
  /\ (forall handoffData,
         obj_get "type" (end_message handoffData) = Some (JStr "end")).
Proof.
  assert (Hkept : forall (base bag : list (string * JSValue)) keys k,
             lacks keys bag = true -> In k keys ->
             obj_get k (obj_assign base bag) = obj_get k base).
  { intros base bag keys k Hl Hin. apply obj_get_assign_absent.
    eapply lacks_get; eassumption. }
  split; [|split; [|split; [|split]]].
  - intros token last bag Hl. unfold text_message.
    split; (erewrite Hkept; [reflexivity | exact Hl | simpl; auto]).
  - intros source bag Hl. unfold play_message.
    split; (erewrite Hkept; [reflexivity | exact Hl | simpl; auto]).
  - intros lang Hl. unfold language_message.
    erewrite Hkept; [reflexivity | exact Hl | simpl; auto].
  - reflexivity.
  - reflexivity.
Qed.

Lemma required_fields_kept_witness :
  obj_get "type" (text_message "hello" None (Some [("lang", JStr "en"); ("interruptible", JBool true)]))
  = Some (JStr "text")
  /\ obj_get "token" (text_message "hello" None (Some [("lang", JStr "en"); ("interruptible", JBool true)]))
     = Some (JStr "hello").
Proof.
  exact (proj1 required_fields_kept "hello" None
           (Some [("lang", JStr "en"); ("interruptible", JBool true)]) eq_refl).
Defined.

(** C7 as stated fails: a bag that carries [type] and [token] replaces both
    in the frame that [sendToken] sends. *)
Lemma bag_overrides_required_fields :
  let bag := Some [("type", JStr "play"); ("token", JStr "bye")] in
  sent (connection (snd (sendToken "hello" None bag fresh_world)))
  = ["{" +:+ quoted "type" +:+ ":" +:+ quoted "play" +:+ ","
         +:+ quoted "token" +:+ ":" +:+ quoted "bye" +:+ ","
         +:+ quoted "last" +:+ ":false}"]
  /\ obj_get "type" (text_message "hello" None bag) <> Some (JStr "text")
  /\ obj_get "token" (text_message "hello" None bag) <> Some (JStr "hello").
Proof.
  repeat split; discriminate.
Qed.

(** ** The resolver *)

Lemma opt_prop_record o f : string_record o = true -> str_or_undef (opt_prop (JObj o) f).
Proof.
  unfold string_record. simpl. induction o as [|[k v] r IH]; simpl.
  - now left.
  - intros H. apply andb_true_iff in H as [Hv Hr].
    destruct (String.eqb k f).
    + destruct v; try discriminate. right. eauto.
    + now apply IH.
Qed.

Lemma js_or_str_or_undef a b : str_or_undef a -> str_or_undef b -> str_or_undef (js_or a b).
Proof. unfold js_or. now destruct (truthy a). Qed.

(** [(a || b || ... ) ?? ""] picks the first truthy operand. *)
Lemma coalesce_or_chain rest : forall a,
  Forall str_or_undef (a :: rest) ->
  js_coalesce (fold_left js_or rest a) (JStr EmptyString) = pick (a :: rest).
Proof.
  induction rest as [|b r IH]; intros a Hall.
  - apply Forall_inv in Hall. destruct Hall as [->|[s ->]]; [reflexivity|].
    simpl. destruct (String.eqb s EmptyString) eqn:E; [|reflexivity].
    apply String.eqb_eq in E. now subst.
  - pose proof (Forall_inv Hall) as Ha. pose proof (Forall_inv_tail Hall) as Hr.
    pose proof (Forall_inv Hr) as Hb. pose proof (Forall_inv_tail Hr) as Hr'.
    simpl fold_left. rewrite IH.
    + unfold js_or. simpl. destruct (truthy a) eqn:Ta; simpl; now rewrite ?Ta.
    + constructor; [now apply js_or_str_or_undef | assumption].
Qed.

Lemma pick_is_string vs : Forall str_or_undef vs -> exists s, pick vs = JStr s.
Proof.
  induction 1 as [|v r Hv Hr IH]; simpl; [eauto|].
  destruct (truthy v) eqn:T; [|assumption].
  destruct Hv as [->|[s ->]]; [discriminate | eauto].
Qed.

Lemma fields_of_record o fields :
  string_record o = true -> Forall str_or_undef (map (opt_prop (JObj o)) fields).
Proof.
  intros H. induction fields as [|f r IH]; simpl; constructor.
  - now apply opt_prop_record.
  - exact IH.
Qed.

Lemma by_from_truthy m o :
  string_record o = true ->
  answer_handle (by_from m (JObj o))
  = (let from := first_truthy (JObj o) ["From"; "from"] in
     if non_empty from then lookup_key m from else None).
Proof.
  intros H. unfold by_from, first_truthy.
  change (js_or (opt_prop (JObj o) "From") (opt_prop (JObj o) "from"))
    with (fold_left js_or [opt_prop (JObj o) "from"] (opt_prop (JObj o) "From")).
  rewrite coalesce_or_chain by (apply (fields_of_record o ["From"; "from"] H)).
  change [opt_prop (JObj o) "From"; opt_prop (JObj o) "from"]
    with (map (opt_prop (JObj o)) ["From"; "from"]).
  destruct (pick_is_string _ (fields_of_record o ["From"; "from"] H)) as [s ->].
  simpl. destruct (String.eqb s EmptyString); simpl; [reflexivity|].
  now destruct (m !! s).
Qed.

Lemma by_callSid_truthy m o :
  string_record o = true ->
  by_callSid m CallSid (JObj o)
  = Return (let callSid := first_truthy (JObj o) ["CallSid"; "Sid"; "callSid"; "sid"] in
            if accepts "CA" callSid then Some (map_get m callSid) else None).
Proof.
  intros H. unfold by_callSid, first_truthy.
  pose proof (fields_of_record o ["CallSid"; "Sid"; "callSid"; "sid"] H) as Hall.
  change (js_or (js_or (js_or (opt_prop (JObj o) "CallSid") (opt_prop (JObj o) "Sid"))
                   (opt_prop (JObj o) "callSid")) (opt_prop (JObj o) "sid"))
    with (fold_left js_or
            [opt_prop (JObj o) "Sid"; opt_prop (JObj o) "callSid"; opt_prop (JObj o) "sid"]
            (opt_prop (JObj o) "CallSid")).
  rewrite coalesce_or_chain by exact Hall.
  change [opt_prop (JObj o) "CallSid"; opt_prop (JObj o) "Sid";
          opt_prop (JObj o) "callSid"; opt_prop (JObj o) "sid"]
    with (map (opt_prop (JObj o)) ["CallSid"; "Sid"; "callSid"; "sid"]).
  destruct (pick_is_string _ Hall) as [s ->]. reflexivity.
Qed.

Lemma by_sessionId_truthy m o :
  string_record o = true ->
  by_sessionId m SessionId (JObj o)
  = Return (let sessionId := first_truthy (JObj o) ["sessionId"; "SessionId"; "id"] in
            if accepts "VX" sessionId then Some (map_get m sessionId) else None).
Proof.
  intros H. unfold by_sessionId, first_truthy.
  pose proof (fields_of_record o ["sessionId"; "SessionId"; "id"] H) as Hall.
  assert (Hchain :
    or_else (js_or (opt_prop (JObj o) "sessionId") (opt_prop (JObj o) "SessionId"))
      (get_prop (JObj o) "id")
    = Return (fold_left js_or [opt_prop (JObj o) "SessionId"; opt_prop (JObj o) "id"]
                (opt_prop (JObj o) "sessionId"))).
  { unfold or_else. cbn [fold_left].
    set (ab := js_or (opt_prop (JObj o) "sessionId") (opt_prop (JObj o) "SessionId")).
    unfold js_or. now destruct (truthy ab). }
  rewrite Hchain. cbn [and_then]. rewrite coalesce_or_chain by exact Hall.
  change [opt_prop (JObj o) "sessionId"; opt_prop (JObj o) "SessionId";
          opt_prop (JObj o) "id"]
    with (map (opt_prop (JObj o)) ["sessionId"; "SessionId"; "id"]).
  destruct (pick_is_string _ Hall) as [s ->]. reflexivity.
Qed.

(** The same facts for fields that may also be [null]. *)
Lemma plain_js_or a b :
  plain_field a = true -> plain_field b = true -> plain_field (js_or a b) = true.
Proof. unfold js_or. now destruct (truthy a). Qed.

Lemma coalesce_or_chain_plain rest : forall a,
  Forall (fun v => plain_field v = true) (a :: rest) ->
  js_coalesce (fold_left js_or rest a) (JStr EmptyString) = pick (a :: rest).
Proof.
  induction rest as [|b r IH]; intros a Hall.
  - apply Forall_inv in Hall. destruct a; try discriminate; try reflexivity.
    simpl. destruct (String.eqb s EmptyString) eqn:E; [|reflexivity].
    apply String.eqb_eq in E. now subst.
  - pose proof (Forall_inv Hall) as Ha. pose proof (Forall_inv_tail Hall) as Hr.
    pose proof (Forall_inv Hr) as Hb. pose proof (Forall_inv_tail Hr) as Hr'.
    simpl fold_left. rewrite IH.
    + unfold js_or. simpl. destruct (truthy a) eqn:Ta; simpl; now rewrite ?Ta.
    + constructor; [now apply plain_js_or | assumption].
Qed.

Lemma pick_plain_is_string vs :
  Forall (fun v => plain_field v = true) vs -> exists s, pick vs = JStr s.
Proof.
  induction 1 as [|v r Hv Hr IH]; simpl; [eauto|].
  destruct (truthy v) eqn:T; [|assumption].
  destruct v; try discriminate; eauto.
Qed.

Lemma plain_fields_sub body (fields scanned : list string) :
  forallb (fun f => plain_field (opt_prop body f)) scanned = true ->
  (forall f, In f fields -> In f scanned) ->
  Forall (fun v => plain_field v = true) (map (opt_prop body) fields).
Proof.
  rewrite forallb_forall. intros Hall Hsub.
  induction fields as [|f r IH]; simpl; constructor.
  - apply Hall, Hsub. now left.
  - apply IH. intros g Hg. apply Hsub. now right.
Qed.

Lemma get_prop_present body k :
  nullish body = false -> get_prop body k = Return (opt_prop body k).
Proof. now destruct body. Qed.

Lemma by_from_plain m body :
  Forall (fun v => plain_field v = true) (map (opt_prop body) ["From"; "from"]) ->
  answer_handle (by_from m body)
  = (let from := first_truthy body ["From"; "from"] in
     if non_empty from then lookup_key m from else None).
Proof.
  intros Hall. unfold by_from, first_truthy.
  change (js_or (opt_prop body "From") (opt_prop body "from"))
    with (fold_left js_or [opt_prop body "from"] (opt_prop body "From")).
  rewrite coalesce_or_chain_plain by exact Hall.
  change [opt_prop body "From"; opt_prop body "from"]
    with (map (opt_prop body) ["From"; "from"]).
  destruct (pick_plain_is_string _ Hall) as [s ->].
  simpl. destruct (String.eqb s EmptyString); simpl; [reflexivity|].
  now destruct (m !! s).
Qed.

Lemma by_callSid_plain m body :
  Forall (fun v => plain_field v = true)
    (map (opt_prop body) ["CallSid"; "Sid"; "callSid"; "sid"]) ->
  by_callSid m CallSid body
  = Return (let callSid := first_truthy body ["CallSid"; "Sid"; "callSid"; "sid"] in
            if accepts "CA" callSid then Some (map_get m callSid) else None).
Proof.
  intros Hall. unfold by_callSid, first_truthy.
  change (js_or (js_or (js_or (opt_prop body "CallSid") (opt_prop body "Sid"))
                   (opt_prop body "callSid")) (opt_prop body "sid"))
    with (fold_left js_or
            [opt_prop body "Sid"; opt_prop body "callSid"; opt_prop body "sid"]
            (opt_prop body "CallSid")).
  rewrite coalesce_or_chain_plain by exact Hall.
  change [opt_prop body "CallSid"; opt_prop body "Sid";
          opt_prop body "callSid"; opt_prop body "sid"]
    with (map (opt_prop body) ["CallSid"; "Sid"; "callSid"; "sid"]).
  destruct (pick_plain_is_string _ Hall) as [s ->]. reflexivity.
Qed.

Lemma by_sessionId_plain m body :
  nullish body = false ->
  Forall (fun v => plain_field v = true)
    (map (opt_prop body) ["sessionId"; "SessionId"; "id"]) ->
  by_sessionId m SessionId body
  = Return (let sessionId := first_truthy body ["sessionId"; "SessionId"; "id"] in
            if accepts "VX" sessionId then Some (map_get m sessionId) else None).
Proof.
  intros Hbody Hall. unfold by_sessionId, first_truthy.
  assert (Hchain :
    or_else (js_or (opt_prop body "sessionId") (opt_prop body "SessionId"))
      (get_prop body "id")
    = Return (fold_left js_or [opt_prop body "SessionId"; opt_prop body "id"]
                (opt_prop body "sessionId"))).
  { rewrite get_prop_present by exact Hbody. unfold or_else. cbn [fold_left].
    set (ab := js_or (opt_prop body "sessionId") (opt_prop body "SessionId")).
    unfold js_or. now destruct (truthy ab). }
  rewrite Hchain. cbn [and_then]. rewrite coalesce_or_chain_plain by exact Hall.
  change [opt_prop body "sessionId"; opt_prop body "SessionId"; opt_prop body "id"]
    with (map (opt_prop body) ["sessionId"; "SessionId"; "id"]).
  destruct (pick_plain_is_string _ Hall) as [s ->]. reflexivity.
Qed.

(** C2, as the code has it.  For every policy and every payload whose
    scanned fields - the policy's fields and [From], [from] - are each
    absent, [null] or a string (the payload itself may be absent, except
    under policy [SessionId]), with no explicit key, the candidate is the
    first non-empty value among the policy's fields (default: the empty
    string), accepted on its prefix and looked up, with the [From]/[from]
    fallback chosen the same way; no candidate gives an absent result. *)
Theorem getActiveSession_first_truthy (m : gmap string Handle) (policy : SessionIdKey)
    (body : JSValue) :
  resolvable policy body = true ->
  exists a,
    getActiveSession m policy body None = Return a
    /\ answer_handle a = resolve_truthy m policy body.
Proof.
  unfold resolvable. intros H. apply andb_true_iff in H as [Hscan Hbody].
  assert (Hfrom : answer_handle (by_from m body)
                  = (if non_empty (first_truthy body ["From"; "from"])
                     then lookup_key m (first_truthy body ["From"; "from"])
                     else None)).
  { apply by_from_plain. apply (plain_fields_sub body _ _ Hscan).
    intros f Hf. destruct policy; simpl in *; tauto. }
  unfold getActiveSession, from_body, resolve_truthy, resolve_with.
  destruct policy.
  - cbn [by_callSid by_sessionId and_then].
    eexists; split; [reflexivity | exact Hfrom].
  - assert (Hall : Forall (fun v => plain_field v = true)
                     (map (opt_prop body) ["CallSid"; "Sid"; "callSid"; "sid"])).
    { apply (plain_fields_sub body _ _ Hscan). intros f Hf. simpl in *. tauto. }
    rewrite by_callSid_plain by exact Hall. cbn [and_then by_sessionId]. cbv zeta.
    destruct (pick_plain_is_string _ Hall) as [s Hs].
    unfold first_truthy in *. rewrite Hs. cbn [accepts].
    destruct (String.prefix "CA" s).
    + eexists; split; [reflexivity|]. cbn. now destruct (m !! s).
    + eexists; split; [reflexivity | exact Hfrom].
  - assert (Hall : Forall (fun v => plain_field v = true)
                     (map (opt_prop body) ["sessionId"; "SessionId"; "id"])).
    { apply (plain_fields_sub body _ _ Hscan). intros f Hf. simpl in *. tauto. }
    apply negb_true_iff in Hbody.
    cbn [by_callSid and_then]. rewrite by_sessionId_plain by assumption.
    cbn [and_then]. cbv zeta.
    destruct (pick_plain_is_string _ Hall) as [s Hs].
    unfold first_truthy in *. rewrite Hs. cbn [accepts].
    destruct (String.prefix "VX" s).
    + eexists; split; [reflexivity|]. cbn. now destruct (m !! s).
    + eexists; split; [reflexivity | exact Hfrom].
Qed.

Lemma getActiveSession_first_truthy_witness :
  (exists a,
      getActiveSession {[ "CA1" := 7 ]} CallSid
        (JObj [("CallSid", JNull); ("Sid", JStr "CA1"); ("Digits", JNum 4)]) None
      = Return a
      /\ answer_handle a
         = resolve_truthy {[ "CA1" := 7 ]} CallSid
             (JObj [("CallSid", JNull); ("Sid", JStr "CA1"); ("Digits", JNum 4)]))
  /\ (exists a,
         getActiveSession {[ "CA1" := 7 ]} CallSid JUndefined None = Return a
         /\ answer_handle a = resolve_truthy {[ "CA1" := 7 ]} CallSid JUndefined).
Proof.
  exact (conj
           (getActiveSession_first_truthy {[ "CA1" := 7 ]} CallSid
              (JObj [("CallSid", JNull); ("Sid", JStr "CA1"); ("Digits", JNum 4)]) eq_refl)
           (getActiveSession_first_truthy {[ "CA1" := 7 ]} CallSid JUndefined eq_refl)).
Defined.

(** C2 as stated fails: [CallSid] is present with an empty value, so it is
    the first present, non-absent value, the prefix test fails and the rule
    as worded ends absent; the code skips the empty value and resolves the
    session filed under [Sid]. *)
Lemma empty_field_is_skipped :
  let body := JObj [("CallSid", JStr EmptyString); ("Sid", JStr "CA1")] in
  getActiveSession {[ "CA1" := 7 ]} CallSid body None = Return (ASession 7)
  /\ resolve_spec {[ "CA1" := 7 ]} CallSid body = None.
Proof.
  split; vm_compute; reflexivity.
Qed.

(** C3, at the failing input.  With policy [SessionId], no explicit key and
    a request without a body, [body.id] is read off [undefined] and the
    resolver throws; under the other two policies the same request gets
    [null]. *)
Theorem getActiveSession_throws_without_body (m : gmap string Handle) :
  getActiveSession m SessionId JUndefined None
  = Throw (TypeError "Cannot read properties of undefined (reading 'id')")
  /\ getActiveSession m CallSid JUndefined None = Return ANull
  /\ getActiveSession m From JUndefined None = Return ANull.
Proof.
  repeat split.
Qed.

(** ** The message listener *)

Section Listener.
Context (JSON_parse : string -> Completion JSValue).
Context {B : Behavior}.
Implicit Types (onInitialized : option (JSValue -> M World unit)).

(** What the [catch] block does with an exception whose [message] can be
    read. *)
Lemma catch_reports (body : M Engine unit) e d (s s' : Engine) :
  body s = (Throw e, s') ->
  exn_message e = Return d ->
  try_catch body
    (fun error =>
       description <- of_completion (exn_message error) ;;
       lift (log LError (obj_literal [("error", description)]) "Error processing message"))
    s
  = (Return tt, (reported d (fst s'), snd s')).
Proof.
  intros Hbody Hmsg. unfold try_catch, bind, of_completion. rewrite Hbody, Hmsg.
  destruct s'. reflexivity.
Qed.

Lemma catch_passes (body : M Engine unit) (handler : Exn -> M Engine unit) (s s' : Engine) :
  body s = (Return tt, s') -> try_catch body handler s = (Return tt, s').
Proof. intros Hbody. unfold try_catch. now rewrite Hbody. Qed.

(** The [try] block on a frame that parses to a message with a [type]. *)
Lemma try_block_parsed onInitialized data message type (w : World) tr :
  JSON_parse data = Return message ->
  get_prop message "type" = Return type ->
  (message <- of_completion (JSON_parse data) ;;
   type <- member message "type" ;;
   lift (log LInfo (obj_literal [("messageType", type)]) "Received message") ;;
   dispatch onInitialized message type) (w, tr)
  = dispatch onInitialized message type (received type w, tr).
Proof.
  intros Hparse Htype. unfold bind, of_completion, member. rewrite Hparse, Htype.
  reflexivity.
Qed.

Lemma dispatch_hook onInitialized message t c h :
  hook_of t = Some (c, h) ->
  dispatch onInitialized message (JStr t) = invoke c message (h message).
Proof.
  unfold hook_of, dispatch.
  destruct (String.eqb t "setup") eqn:Es.
  - apply String.eqb_eq in Es. subst t. discriminate.
  - destruct (String.eqb t "prompt"); [now intros [= <- <-]|].
    destruct (String.eqb t "interrupt"); [now intros [= <- <-]|].
    destruct (String.eqb t "dtmf"); [now intros [= <- <-]|].
    destruct (String.eqb t "error"); [now intros [= <- <-]|].
    discriminate.
Qed.

(** [init] on an object: both assignments, then the hook. *)
Lemma init_object o (w : World) tr :
  init (JObj o) (w, tr)
  = invoke HandleSetup (JObj o) (handleSetup (JObj o)) (adopted o w, tr).
Proof. reflexivity. Qed.

(** The [setup] case, up to the [catch]. *)
Lemma dispatch_setup onInitialized o (w w1 : World) tr :
  run_onInitialized onInitialized (JObj o) w = (Return tt, w1) ->
  dispatch onInitialized (JObj o) (JStr "setup") (w, tr)
  = (fst (handleSetup (JObj o) (adopted o w1)),
     (snd (handleSetup (JObj o) (adopted o w1)),
      (tr ++ onInitialized_calls onInitialized (JObj o)
          ++ [call HandleSetup (JObj o)])%list)).
Proof.
  intros Hcb. unfold dispatch. rewrite String.eqb_refl. unfold bind.
  destruct onInitialized as [f|]; unfold run_onInitialized in Hcb.
  - unfold invoke at 1. cbn [fst snd]. rewrite Hcb.
    rewrite init_object. unfold invoke. cbn [fst snd onInitialized_calls].
    destruct (handleSetup (JObj o) (adopted o w1)) as [r w3]. cbn [fst snd].
    now rewrite <- app_assoc.
  - unfold ret in Hcb |- *. injection Hcb as <-.
    rewrite init_object. unfold invoke. cbn [fst snd onInitialized_calls app].
    destruct (handleSetup (JObj o) (adopted o w)) as [r w3]. reflexivity.
Qed.

(** C8.  When the payload of a frame fails to deserialize, the listener
    completes normally, the calls into user code are those made before
    (no hook runs), the log grows by exactly one line, the error report
    carrying the parse error's message, and nothing else changes; the
    frames that follow are delivered to the same listeners. *)
Theorem malformed_frame_is_dropped onInitialized data name message (w : World) tr :
  JSON_parse data = Throw (ErrorObject name message) ->
  start JSON_parse onInitialized data (w, tr)
  = (Return tt,
     (with_logged
        (logged w
           ++ [{| level := LError; bindings := logger w;
                  merging := [("error", JStr message)];
                  text := "Error processing message" |}])%list
        w,
      tr))
  /\ forall rest,
       emit (listeners JSON_parse onInitialized) (MessageEvent data :: rest) (w, tr)
       = emit (listeners JSON_parse onInitialized) rest
           (reported (JStr message) w, tr).
Proof.
  intros Hparse.
  assert (Hrun : start JSON_parse onInitialized data (w, tr)
                 = (Return tt, (reported (JStr message) w, tr))).
  { unfold start.
    apply catch_reports with (e := ErrorObject name message) (s' := (w, tr)).
    - unfold bind, of_completion. now rewrite Hparse.
    - reflexivity. }
  split.
  - exact Hrun.
  - intros rest. cbn [emit listeners]. now rewrite Hrun.
Qed.
End Listener.

Lemma malformed_frame_is_dropped_witness :
  start (B := ConversationRelaySession) parse_json None "invalid json" fresh_engine
  = (Return tt,
     (with_logged
        [{| level := LError; bindings := [];
            merging := [("error", JStr "Unexpected token")];
            text := "Error processing message" |}]
        fresh_world,
      [])).
Proof.
  exact (proj1 (malformed_frame_is_dropped parse_json (B := ConversationRelaySession)
                  None "invalid json" "SyntaxError" "Unexpected token"
                  fresh_world [] eq_refl)).
Defined.

(** ** Failing hooks *)

Section HookFailure.
Context (JSON_parse : string -> Completion JSValue).
Context {B : Behavior}.
Implicit Types (onInitialized : option (JSValue -> M World unit)).

(** C4, as the code has it.  A behavior hook runs inside the listener's
    [try] block.  When the hook a frame is dispatched to throws an
    exception whose [message] can be read (anything but [null] and
    [undefined]), the listener catches it: it completes normally, having
    logged one error report with that message after whatever the hook did
    before failing.  This holds for the hooks of [prompt], [interrupt],
    [dtmf] and [error] frames, and for [handleSetup] once the function
    passed to [start] has completed. *)
Theorem hook_failure_is_caught onInitialized data (w : World) tr e d (w' : World) :
  exn_message e = Return d ->
  (forall message t c h,
      JSON_parse data = Return message ->
      get_prop message "type" = Return (JStr t) ->
      hook_of t = Some (c, h) ->
      h message (received (JStr t) w) = (Throw e, w') ->
      start JSON_parse onInitialized data (w, tr)
      = (Return tt, (reported d w', (tr ++ [call c message])%list)))
  /\ (forall o w1,
         JSON_parse data = Return (JObj o) ->
         obj_get "type" o = Some (JStr "setup") ->
         run_onInitialized onInitialized (JObj o) (received (JStr "setup") w)
         = (Return tt, w1) ->
         handleSetup (JObj o) (adopted o w1) = (Throw e, w') ->
         start JSON_parse onInitialized data (w, tr)
         = (Return tt,
            (reported d w',
             (tr ++ onInitialized_calls onInitialized (JObj o)
                 ++ [call HandleSetup (JObj o)])%list))).
Proof.
  intros Hmsg. split.
  - intros message t c h Hparse Htype Hhook Hthrow. unfold start.
    apply catch_reports with (e := e) (s' := (w', (tr ++ [call c message])%list));
      [|exact Hmsg].
    rewrite (try_block_parsed JSON_parse onInitialized data message (JStr t) w tr Hparse Htype).
    rewrite (dispatch_hook onInitialized message t c h Hhook).
    unfold invoke. cbn [fst snd]. now rewrite Hthrow.
  - intros o w1 Hparse Htype Hcb Hthrow. unfold start.
    apply catch_reports
      with (e := e)
           (s' := (w', (tr ++ onInitialized_calls onInitialized (JObj o)
                           ++ [call HandleSetup (JObj o)])%list));
      [|exact Hmsg].
    rewrite (try_block_parsed JSON_parse onInitialized data (JObj o) (JStr "setup") w tr Hparse).
    + rewrite (dispatch_setup onInitialized o _ w1 tr Hcb). now rewrite Hthrow.
    + cbn [get_prop]. now rewrite Htype.
Qed.
End HookFailure.

Lemma hook_failure_is_caught_witness :
  start (B := failing_prompt) parse_json None (frame (JObj prompt_message)) fresh_engine
  = (Return tt,
     (reported (JStr "boom") (received (JStr "prompt") fresh_world),
      [call HandlePrompt (JObj prompt_message)])).
Proof.
  exact (proj1 (hook_failure_is_caught parse_json (B := failing_prompt) None
                  (frame (JObj prompt_message)) fresh_world []
                  (ErrorObject "Error" "boom") (JStr "boom")
                  (received (JStr "prompt") fresh_world) eq_refl)
           (JObj prompt_message) "prompt" HandlePrompt handlePrompt
           eq_refl eq_refl eq_refl eq_refl).
Defined.

(** C4 as stated fails: [handlePrompt] throws on a [prompt] frame, and the
    listener does not let the exception out; it completes normally and the
    failure ends as an error line in the log. *)
Lemma thrown_by_hook_does_not_propagate :
  let run := start (B := failing_prompt) parse_json None
               (frame (JObj prompt_message)) fresh_engine in
  handlePrompt (Behavior := failing_prompt) (JObj prompt_message)
    (received (JStr "prompt") fresh_world)
  = (Throw (ErrorObject "Error" "boom"), received (JStr "prompt") fresh_world)
  /\ fst run = Return tt
  /\ (forall e, fst run <> Throw e)
  /\ map (fun entry => (level entry, merging entry, text entry)) (logged (fst (snd run)))
     = [(LInfo, [("messageType", JStr "prompt")], "Received message");
        (LError, [("error", JStr "boom")], "Error processing message")].
Proof.
  repeat split. intros e. discriminate.
Qed.

(** ** Setup frames *)

Lemma setup_message_fields o :
  is_setup_message o = true ->
  is_object o = true
  /\ obj_get "type" o = Some (JStr "setup")
  /\ forall f, In f identity_fields -> exists v, obj_get f o = Some v.
Proof.
  unfold is_setup_message. intros H.
  repeat (apply andb_true_iff in H as [H ?]).
  split; [assumption|]. split.
  - destruct (obj_get "type" o) as [[| | | |t| |]|]; try discriminate.
    match goal with E : String.eqb t "setup" = true |- _ => apply String.eqb_eq in E; now subst end.
  - unfold is_string in *. intros f Hf. simpl in Hf.
    repeat (destruct Hf as [<-|Hf];
            [match goal with
             | |- exists v, ?g = Some v => destruct g; [eauto | discriminate]
             end|]).
    contradiction.
Qed.

(** The record [init] stores: a field of the message wins, any other field
    is the one the record had. *)
Lemma adopted_session_get o (w : World) k :
  is_object o = true ->
  obj_get k (session (adopted o w))
  = match obj_get k o with
    | Some v => Some (Json v)
    | None => obj_get k (obj_assign [] (session w))
    end.
Proof.
  intros Hobj. unfold adopted. cbn [session with_logger with_session].
  rewrite obj_get_assign.
  - rewrite obj_get_map. now destruct (obj_get k o).
  - unfold is_object in *. now rewrite obj_keys_map.
Qed.

(** The record the constructor makes, property by property. *)
Lemma new_session_record conn lg reg now :
  session (new_session conn lg reg now)
  = [("startTime", Date now);
     ("sessionId", Json (JStr EmptyString));
     ("callSid", Json (JStr EmptyString));
     ("accountSid", Json (JStr EmptyString));
     ("from", Json (JStr EmptyString));
     ("to", Json (JStr EmptyString));
     ("direction", Json (JStr "inbound"));
     ("customParameters", Json (JObj []))].
Proof. reflexivity. Qed.

Section Setup.
Context (JSON_parse : string -> Completion JSValue).
Context {B : Behavior}.
Implicit Types (onInitialized : option (JSValue -> M World unit)).

(** C1.  A valid setup frame is processed as follows.  The function passed
    to [start], when there is one, is called exactly once, with the parsed
    message, and has completed before anything else happens; then the
    message is spread over the session record, and the [handleSetup] hook
    is called with the message.  The calls into user code added by the
    frame are exactly these, in this order.  Afterwards each identity
    field of the session record is the field of the frame (the hook being
    user code, provided it leaves the record alone). *)
Theorem setup_frame_processing onInitialized data o (w w1 w3 : World) tr :
  JSON_parse data = Return (JObj o) ->
  is_setup_message o = true ->
  run_onInitialized onInitialized (JObj o) (received (JStr "setup") w) = (Return tt, w1) ->
  handleSetup (JObj o) (adopted o w1) = (Return tt, w3) ->
  session w3 = session (adopted o w1) ->
  start JSON_parse onInitialized data (w, tr)
  = (Return tt,
     (w3,
      (tr ++ onInitialized_calls onInitialized (JObj o)
          ++ [call HandleSetup (JObj o)])%list))
  /\ calls_to OnInitialized
       (onInitialized_calls onInitialized (JObj o) ++ [call HandleSetup (JObj o)])%list
     = match onInitialized with Some _ => 1 | None => 0 end
  /\ forall f, In f identity_fields ->
       exists v, obj_get f o = Some v /\ obj_get f (session w3) = Some (Json v).
Proof.
  intros Hparse Hvalid Hcb Hhook Hkeep.
  destruct (setup_message_fields o Hvalid) as (Hobj & Htype & Hfields).
  split; [|split].
  - unfold start. apply catch_passes.
    rewrite (try_block_parsed JSON_parse onInitialized data (JObj o) (JStr "setup") w tr Hparse).
    + rewrite (dispatch_setup onInitialized o _ w1 tr Hcb). now rewrite Hhook.
    + cbn [get_prop]. now rewrite Htype.
  - now destruct onInitialized.
  - intros f Hf. destruct (Hfields f Hf) as [v Hv]. exists v. split; [exact Hv|].
    rewrite Hkeep, adopted_session_get by exact Hobj. now rewrite Hv.
Qed.
End Setup.

Section Init.
Context {B : Behavior}.

(** C10, as the code has it.  [init] on a setup message, applied to the
    record made by the constructor: every field of the message, its [type]
    included, is stored in the record, and no field of the constructor but
    [startTime] keeps its value; [startTime] keeps it exactly when the
    message has no field of that name - a [startTime] of the message is
    stored like any other field. *)
Theorem init_overwrites_session o conn lg reg now (w : World) tr :
  is_setup_message o = true ->
  session w = session (new_session conn lg reg now) ->
  keeps_session (handleSetup (JObj o)) ->
  let stored := session (fst (snd (init (JObj o) (w, tr)))) in
  (forall k v, obj_get k o = Some v -> obj_get k stored = Some (Json v))
  /\ obj_get "type" stored = Some (Json (JStr "setup"))
  /\ obj_get "startTime" stored
     = match obj_get "startTime" o with
       | Some v => Some (Json v)
       | None => Some (Date now)
       end
  /\ (forall k, k <> "startTime" -> obj_get k stored = option_map Json (obj_get k o)).
Proof.
  intros Hvalid Hnew Hkeep stored.
  destruct (setup_message_fields o Hvalid) as (Hobj & Htype & Hfields).
  assert (Hstored : forall k,
             obj_get k stored
             = match obj_get k o with
               | Some v => Some (Json v)
               | None => obj_get k (session (new_session conn lg reg now))
               end).
  { intros k. subst stored. rewrite init_object. unfold invoke. cbn [fst snd].
    destruct (handleSetup (JObj o) (adopted o w)) as [r w3] eqn:Eh. cbn [fst snd].
    pose proof (Hkeep (adopted o w)) as Hk. rewrite Eh in Hk. cbn [snd] in Hk.
    rewrite Hk, adopted_session_get by exact Hobj. now rewrite Hnew. }
  split; [|split; [|split]].
  - intros k v Hk. now rewrite Hstored, Hk.
  - now rewrite Hstored, Htype.
  - rewrite Hstored. now destruct (obj_get "startTime" o).
  - intros k Hne. rewrite Hstored.
    destruct (obj_get k o) as [v|] eqn:Ek; [reflexivity|]. cbn [option_map].
    assert (Hid : In k identity_fields -> False).
    { intros Hin. destruct (Hfields k Hin) as [v Hv]. congruence. }
    rewrite new_session_record. cbn [obj_get].
    repeat match goal with
                | |- context [String.eqb ?a k] =>
                    destruct (String.eqb_spec a k) as [Heq|_];
                    [exfalso; first [now apply Hne | apply Hid; rewrite <- Heq; simpl; tauto]|]
                end.
    reflexivity.
Qed.
End Init.

Lemma setup_frame_processing_witness :
  let w1 := snd (register CallSid 1 (JObj setup_message) (received (JStr "setup") fresh_world)) in
  let w3 := snd (handleSetup (Behavior := ConversationRelaySession) (JObj setup_message)
                   (adopted setup_message w1)) in
  start (B := ConversationRelaySession) parse_json (Some (register CallSid 1))
    (frame (JObj setup_message)) fresh_engine
  = (Return tt,
     (w3, [call OnInitialized (JObj setup_message); call HandleSetup (JObj setup_message)])).
Proof.
  exact (proj1 (setup_frame_processing parse_json (B := ConversationRelaySession)
                  (Some (register CallSid 1)) (frame (JObj setup_message)) setup_message
                  fresh_world _ _ [] eq_refl eq_refl eq_refl eq_refl eq_refl)).
Defined.

Lemma init_overwrites_session_witness :
  let stored :=
    session (fst (snd (init (B := ConversationRelaySession) (JObj setup_message) fresh_engine))) in
  obj_get "type" stored = Some (Json (JStr "setup"))
  /\ obj_get "startTime" stored = Some (Date 1700000000000%Z).
Proof.
  pose proof (init_overwrites_session (B := ConversationRelaySession) setup_message
                open_connection [] ∅ 1700000000000%Z fresh_world []
                eq_refl eq_refl (fun w => eq_refl)) as H.
  exact (conj (proj1 (proj2 H)) (proj1 (proj2 (proj2 H)))).
Defined.

(** C10 as stated fails: a setup frame may carry a [startTime] field next
    to the declared ones; [init] then stores the frame's value, and the
    time taken at construction is not preserved. *)
Lemma startTime_of_the_frame_is_stored :
  let stored :=
    session (fst (snd (init (B := ConversationRelaySession) (JObj dated_setup_message)
                         fresh_engine))) in
  is_setup_message dated_setup_message = true
  /\ obj_get "startTime" (session fresh_world) = Some (Date 1700000000000%Z)
  /\ obj_get "startTime" stored = Some (Json (JNum 5))
  /\ obj_get "startTime" stored <> obj_get "startTime" (session fresh_world).
Proof.
  repeat split. discriminate.
Qed.

(** ** Closing *)

Lemma calls_to_app c (t1 t2 : list Call) :
  calls_to c (t1 ++ t2) = calls_to c t1 + calls_to c t2.
Proof.
  unfold calls_to. now rewrite List.filter_app, length_app.
Qed.

Section Closing.
Context (JSON_parse : string -> Completion JSValue).
Context {B : Behavior}.

Lemma close_calls (s : Engine) :
  snd (snd (close s)) = (snd s ++ [call HandleClose JUndefined])%list.
Proof.
  unfold close, invoke. now destruct (handleClose (fst s)).
Qed.

(** C9, as the code has it.  [close()] calls [handleClose] every time it
    runs, whatever the call's outcome: a sequence of [n] close triggers
    makes [n] calls, one call only when there is one trigger. *)
Theorem close_calls_handleClose_each_time
    (onInitialized : option (JSValue -> M World unit)) (triggers : list CloseTrigger) :
  forall s : Engine,
    calls_to HandleClose (snd (emit (trigger_close JSON_parse onInitialized) triggers s))
    = calls_to HandleClose (snd s) + length triggers.
Proof.
  induction triggers as [|t r IH]; intros s; cbn [emit length].
  - now rewrite Nat.add_0_r.
  - rewrite IH.
    assert (Hstep : snd (snd (trigger_close JSON_parse onInitialized t s))
                    = (snd s ++ [call HandleClose JUndefined])%list)
      by (destruct t; apply close_calls).
    rewrite Hstep, calls_to_app. cbn. lia.
Qed.
End Closing.

(** C9 as stated fails: when the connection closes and the holder of the
    session also calls [close()], [handleClose] is called twice. *)
Lemma two_closes_call_handleClose_twice :
  calls_to HandleClose
    (snd (emit (trigger_close (B := ConversationRelaySession) parse_json
                  (Some (register From 1)))
            [ConnectionClosed; ExplicitClose] fresh_engine))
  = 2
  /\ calls_to HandleClose
       (snd (emit (trigger_close (B := ConversationRelaySession) parse_json
                     (Some (register From 1)))
               [ConnectionClosed; ExplicitClose] fresh_engine))
     <> 1.
Proof.
  split; [reflexivity | discriminate].
Qed.

(** * Further properties of the engine *)

(** ** Dispatch *)

Section Dispatch.
Context (JSON_parse : string -> Completion JSValue).
Context {B : Behavior}.
Implicit Types (onInitialized : option (JSValue -> M World unit)).

Lemma plain_hooks_hook_of t c h :
  In (t, c, h) plain_hooks -> hook_of t = Some (c, h).
Proof.
  unfold plain_hooks. simpl.
  intros [H|[H|[H|[H|[]]]]]; injection H as <- <- <-; reflexivity.
Qed.

(** X1.  A [prompt], [interrupt], [dtmf] or [error] frame reaches the
    behavior method of its type and no other: when the method completes,
    the listener completes, the world is the one the method left, and the
    one call added is the call of that method with the parsed message. *)
Theorem frame_reaches_its_hook onInitialized data message t c h (w w' : World) tr :
  JSON_parse data = Return message ->
  get_prop message "type" = Return (JStr t) ->
  In (t, c, h) plain_hooks ->
  h message (received (JStr t) w) = (Return tt, w') ->
  start JSON_parse onInitialized data (w, tr)
  = (Return tt, (w', (tr ++ [call c message])%list)).
Proof.
  intros Hparse Htype Hin Hhook. apply plain_hooks_hook_of in Hin.
  unfold start. apply catch_passes.
  rewrite (try_block_parsed JSON_parse onInitialized data message (JStr t) w tr Hparse Htype).
  rewrite (dispatch_hook onInitialized message t c h Hin).
  unfold invoke. cbn [fst snd]. now rewrite Hhook.
Qed.

Lemma dispatch_unknown onInitialized message type (s : Engine) :
  known_type type = false ->
  dispatch onInitialized message type s
  = (Return tt, (warned type (fst s), snd s)).
Proof.
  intros Hk. unfold dispatch. destruct s as [w tr].
  destruct type as [| | | |t| |]; try reflexivity.
  cbn [known_type] in Hk.
  repeat (apply orb_false_iff in Hk as [Hk ?]).
  repeat match goal with E : String.eqb t _ = false |- _ => rewrite E; clear E end.
  reflexivity.
Qed.

(** X2.  A frame that parses but has no [type] the switch knows calls no
    method.  When the parsed value is [null], reading its [type] throws and
    the failure is reported; otherwise - a type of another name, a type that
    is not a string, no type at all - the listener logs the reception and
    one warning that carries the type, and changes nothing else. *)
Theorem frame_without_known_type onInitialized data (w : World) tr :
  (JSON_parse data = Return JNull ->
   start JSON_parse onInitialized data (w, tr)
   = (Return tt,
      (reported (JStr "Cannot read properties of null (reading 'type')") w, tr)))
  /\ (forall message type,
         JSON_parse data = Return message ->
         get_prop message "type" = Return type ->
         known_type type = false ->
         start JSON_parse onInitialized data (w, tr)
         = (Return tt, (warned type (received type w), tr))).
Proof.
  split.
  - intros Hparse. unfold start.
    apply catch_reports
      with (e := TypeError "Cannot read properties of null (reading 'type')") (s' := (w, tr));
      [|reflexivity].
    unfold bind, of_completion, member. now rewrite Hparse.
  - intros message type Hparse Htype Hk. unfold start. apply catch_passes.
    rewrite (try_block_parsed JSON_parse onInitialized data message type w tr Hparse Htype).
    now rewrite dispatch_unknown.
Qed.

(** X3.  The one way the listener's promise rejects: the [catch] block
    itself fails, reading [message] off a thrown [undefined] or [null].
    Whatever the decoder, the methods and the frame, a rejection is one of
    these two type errors. *)
Theorem listener_rejects_only_in_catch onInitialized data (s : Engine) e :
  fst (start JSON_parse onInitialized data s) = Throw e ->
  e = TypeError "Cannot read properties of undefined (reading 'message')"
  \/ e = TypeError "Cannot read properties of null (reading 'message')".
Proof.
  unfold start, try_catch.
  match goal with |- context [match ?b s with _ => _ end] => destruct (b s) as [[[]|e0] s'] end.
  - discriminate.
  - unfold bind, of_completion.
    destruct e0 as [name msg|v]; cbn [exn_message].
    + unfold lift, log. discriminate.
    + destruct v; cbn [get_prop fst]; unfold lift, log; cbn [fst];
        try discriminate; intros [= <-]; auto.
Qed.

(** X4.  When the method a frame is dispatched to throws a value whose
    [message] cannot be read, the [catch] block fails before it logs: the
    listener rejects with the error of that read, and the log holds no
    report of the failure. *)
Theorem unreadable_failure_escapes onInitialized data message t c h
    (w w' : World) tr e e' :
  JSON_parse data = Return message ->
  get_prop message "type" = Return (JStr t) ->
  In (t, c, h) plain_hooks ->
  h message (received (JStr t) w) = (Throw e, w') ->
  exn_message e = Throw e' ->
  start JSON_parse onInitialized data (w, tr)
  = (Throw e', (w', (tr ++ [call c message])%list)).
Proof.
  intros Hparse Htype Hin Hhook Hmsg. apply plain_hooks_hook_of in Hin.
  unfold start, try_catch.
  rewrite (try_block_parsed JSON_parse onInitialized data message (JStr t) w tr Hparse Htype).
  rewrite (dispatch_hook onInitialized message t c h Hin).
  unfold invoke. cbn [fst snd]. rewrite Hhook.
  unfold bind, of_completion. now rewrite Hmsg.
Qed.

(** X5.  When the function passed to [start] throws on a setup frame,
    [init] does not run: the session record and the logger are those the
    function left, [handleSetup] is not called, and the failure is
    reported. *)
Theorem failed_registration_skips_init f data o (w w1 : World) tr e d :
  JSON_parse data = Return (JObj o) ->
  obj_get "type" o = Some (JStr "setup") ->
  f (JObj o) (received (JStr "setup") w) = (Throw e, w1) ->
  exn_message e = Return d ->
  start JSON_parse (Some f) data (w, tr)
  = (Return tt, (reported d w1, (tr ++ [call OnInitialized (JObj o)])%list)).
Proof.
  intros Hparse Htype Hf Hmsg. unfold start.
  apply catch_reports with (e := e) (s' := (w1, (tr ++ [call OnInitialized (JObj o)])%list));
    [|exact Hmsg].
  rewrite (try_block_parsed JSON_parse (Some f) data (JObj o) (JStr "setup") w tr Hparse).
  - unfold dispatch. rewrite String.eqb_refl. unfold bind, invoke. cbn [fst snd].
    now rewrite Hf.
  - cbn [get_prop]. now rewrite Htype.
Qed.
End Dispatch.

Lemma frame_reaches_its_hook_witness :
  start (B := ConversationRelaySession) parse_json None (frame (JObj prompt_message))
    fresh_engine
  = (Return tt,
     (snd (handlePrompt (Behavior := ConversationRelaySession) (JObj prompt_message)
             (received (JStr "prompt") fresh_world)),
      [call HandlePrompt (JObj prompt_message)])).
Proof.
  exact (frame_reaches_its_hook parse_json (B := ConversationRelaySession) None
           (frame (JObj prompt_message)) (JObj prompt_message) "prompt" HandlePrompt
           handlePrompt fresh_world _ [] eq_refl eq_refl (or_introl eq_refl) eq_refl).
Defined.

Lemma frame_without_known_type_witness :
  start (B := ConversationRelaySession) parse_json None "null" fresh_engine
  = (Return tt,
     (reported (JStr "Cannot read properties of null (reading 'type')") fresh_world, []))
  /\ start (B := ConversationRelaySession) parse_json None "[1, 2]" fresh_engine
     = (Return tt, (warned JUndefined (received JUndefined fresh_world), [])).
Proof.
  split.
  - exact (proj1 (frame_without_known_type parse_json (B := ConversationRelaySession)
                    None "null" fresh_world []) eq_refl).
  - exact (proj2 (frame_without_known_type parse_json (B := ConversationRelaySession)
                    None "[1, 2]" fresh_world [])
             (JArr [JNum 1; JNum 2]) JUndefined eq_refl eq_refl eq_refl).
Defined.

Lemma listener_rejects_only_in_catch_witness :
  TypeError "Cannot read properties of undefined (reading 'message')"
  = TypeError "Cannot read properties of undefined (reading 'message')"
  \/ TypeError "Cannot read properties of undefined (reading 'message')"
     = TypeError "Cannot read properties of null (reading 'message')".
Proof.
  exact (listener_rejects_only_in_catch parse_json (B := throwing_undefined) None
           (frame (JObj prompt_message)) fresh_engine _ eq_refl).
Defined.

Lemma unreadable_failure_escapes_witness :
  start (B := throwing_undefined) parse_json None (frame (JObj prompt_message)) fresh_engine
  = (Throw (TypeError "Cannot read properties of undefined (reading 'message')"),
     (received (JStr "prompt") fresh_world, [call HandlePrompt (JObj prompt_message)])).
Proof.
  exact (unreadable_failure_escapes parse_json (B := throwing_undefined) None
           (frame (JObj prompt_message)) (JObj prompt_message) "prompt" HandlePrompt
           handlePrompt fresh_world _ [] (Thrown JUndefined) _
           eq_refl eq_refl (or_introl eq_refl) eq_refl eq_refl).
Defined.

Lemma failed_registration_skips_init_witness :
  start (B := ConversationRelaySession) parse_json
    (Some (fun _ => throw (ErrorObject "Error" "registry down")))
    (frame (JObj setup_message)) fresh_engine
  = (Return tt,
     (reported (JStr "registry down") (received (JStr "setup") fresh_world),
      [call OnInitialized (JObj setup_message)])).
Proof.
  exact (failed_registration_skips_init parse_json (B := ConversationRelaySession)
           (fun _ => throw (ErrorObject "Error" "registry down"))
           (frame (JObj setup_message)) setup_message fresh_world _ []
           (ErrorObject "Error" "registry down") (JStr "registry down")
           eq_refl eq_refl eq_refl eq_refl).
Defined.

(** ** Outbound operations *)




(** X7.  On an open connection the frames of [sendDigits], [end] and a
    [play] without a bag are, for every argument: [type] then [digits];
    [type] alone when [handoffData] is absent - the field is left out, not
    sent as [null] - and [type] then [handoffData] otherwise; [type] then
    [source].  String arguments are quoted as JSON. *)
Theorem frames_of_plain_operations (w : World) :
  readyState (connection w) = OPEN ->
  (forall digits,
      sent (connection (snd (sendDigits digits w)))
      = (sent (connection w)
           ++ ["{" +:+ quoted "type" +:+ ":" +:+ quoted "sendDigits" +:+ ","
                   +:+ quoted "digits" +:+ ":" +:+ quote digits +:+ "}"])%list)
  /\ sent (connection (snd (end_ None w)))
     = (sent (connection w) ++ ["{" +:+ quoted "type" +:+ ":" +:+ quoted "end" +:+ "}"])%list
  /\ (forall d,
         sent (connection (snd (end_ (Some d) w)))
         = (sent (connection w)
              ++ ["{" +:+ quoted "type" +:+ ":" +:+ quoted "end" +:+ ","
                      +:+ quoted "handoffData" +:+ ":" +:+ quote d +:+ "}"])%list)
  /\ (forall source,
         sent (connection (snd (play source None w)))
         = (sent (connection w)
              ++ ["{" +:+ quoted "type" +:+ ":" +:+ quoted "play" +:+ ","
                      +:+ quoted "source" +:+ ":" +:+ quote source +:+ "}"])%list).
Proof.
  intros Hopen. repeat split; intros.
  - unfold sendDigits. now rewrite send_open.
  - unfold end_. now rewrite send_open.
  - unfold end_. now rewrite send_open.
  - unfold play. now rewrite send_open.
Qed.

Lemma frames_of_plain_operations_witness :
  sent (connection (snd (end_ None fresh_world)))
  = ["{" +:+ quoted "type" +:+ ":" +:+ quoted "end" +:+ "}"].
Proof.
  exact (proj1 (proj2 (frames_of_plain_operations fresh_world eq_refl))).
Defined.

(** X8.  In the messages built with a bag, the bag has the last word on
    every field: a field of the bag is that field of the message, whatever
    the operation had put there - [last] included -, and a field the bag
    lacks is the one of the message built without a bag. *)
Theorem bag_has_the_last_word (bag : list (string * JSValue)) (k : string) :
  is_object bag = true ->
  (forall token last,
      obj_get k (text_message token last (Some bag))
      = match obj_get k bag with
        | Some v => Some v
        | None => obj_get k (text_message token last None)
        end)
  /\ (forall source,
         obj_get k (play_message source (Some bag))
         = match obj_get k bag with
           | Some v => Some v
           | None => obj_get k (play_message source None)
           end)
  /\ obj_get k (language_message bag)
     = match obj_get k bag with
       | Some v => Some v
       | None => obj_get k (language_message [])
       end.
Proof.
  intros Hobj. repeat split; intros.
  - unfold text_message. cbn [optional_props]. now rewrite obj_get_assign.
  - unfold play_message. cbn [optional_props]. now rewrite obj_get_assign.
  - unfold language_message. now rewrite obj_get_assign.
Qed.

Lemma bag_has_the_last_word_witness :
  obj_get "last" (text_message "hello" (Some false) (Some [("last", JBool true)]))
  = Some (JBool true).
Proof.
  exact (proj1 (bag_has_the_last_word [("last", JBool true)] "last" eq_refl)
           "hello" (Some false)).
Defined.




(** ** The registry *)

Lemma register_object policy this o w :
  register policy this (JObj o) w
  = (Return tt,
     with_activeSessions (<[registration_key policy o := this]> (activeSessions w)) w).
Proof. now destruct policy. Qed.


(** X11.  A setup message that lacks the policy's field is still
    registered: the template literal turns the missing value into the text
    [undefined], and the session is filed under that key. *)
Theorem registration_without_the_field policy (this : Handle) o (w : World) :
  obj_get (setup_field policy) o = None ->
  activeSessions (snd (register policy this (JObj o) w)) !! "undefined" = Some this.
Proof.
  intros Hmissing. rewrite register_object. unfold registration_key. rewrite Hmissing.
  cbn [snd activeSessions with_activeSessions to_string]. apply lookup_insert_eq.
Qed.

Lemma registration_without_the_field_witness :
  activeSessions
    (snd (register From 7 (JObj [("type", JStr "setup"); ("callSid", JStr "CA1")]) fresh_world))
  !! "undefined"
  = Some 7.
Proof.
  exact (registration_without_the_field From 7
           [("type", JStr "setup"); ("callSid", JStr "CA1")] fresh_world eq_refl).
Defined.



(** ** The resolver *)

Lemma answer_handle_session a h : answer_handle a = Some h -> a = ASession h.
Proof. destruct a; simpl; congruence. Qed.

Lemma map_get_registered (m : gmap string Handle) v h :
  map_get m v = ASession h -> exists k, m !! k = Some h.
Proof.
  destruct v as [| | | |k| |]; simpl; try discriminate.
  destruct (m !! k) as [h'|] eqn:E; [|discriminate]. intros [= ->]. eauto.
Qed.

(** X13.  Registration and resolution fit together.  Once a session is
    registered from a setup message whose key field is a non-empty string
    with the policy's prefix, a request whose payload - an object with
    string fields - gives that string as the first non-empty value among
    the policy's fields resolves to the session; and so does the explicit
    key, under any policy and with any payload, absent included. *)
Theorem registered_session_resolves policy (this : Handle) o body k (w : World) :
  obj_get (setup_field policy) o = Some (JStr k) ->
  k <> EmptyString ->
  String.prefix (policy_prefix policy) k = true ->
  string_record body = true ->
  first_truthy (JObj body) (policy_fields policy) = JStr k ->
  let registry := activeSessions (snd (register policy this (JObj o) w)) in
  getActiveSession registry policy (JObj body) None = Return (ASession this)
  /\ forall any_policy any_body,
       getActiveSession registry any_policy any_body (Some k) = Return (ASession this).
Proof.
  intros Hfield Hne Hprefix Hrec Hfirst registry.
  assert (Hreg : registry !! k = Some this).
  { subst registry. rewrite register_object. unfold registration_key. rewrite Hfield.
    cbn [snd activeSessions with_activeSessions to_string]. apply lookup_insert_eq. }
  assert (Hk : String.eqb k EmptyString = false) by now apply String.eqb_neq.
  split.
  - unfold getActiveSession, from_body.
    destruct policy; cbn [policy_fields policy_prefix] in *.
    + cbn [by_callSid by_sessionId and_then].
      apply (f_equal Return). apply answer_handle_session.
      rewrite by_from_truthy by exact Hrec. cbv zeta. rewrite Hfirst.
      cbn [non_empty lookup_key]. now rewrite Hk.
    + rewrite by_callSid_truthy by exact Hrec. cbv zeta. rewrite Hfirst.
      cbn [accepts]. rewrite Hprefix. cbn [and_then map_get]. now rewrite Hreg.
    + cbn [by_callSid and_then]. rewrite by_sessionId_truthy by exact Hrec.
      cbv zeta. rewrite Hfirst. cbn [accepts]. rewrite Hprefix.
      cbn [and_then map_get]. now rewrite Hreg.
  - intros any_policy any_body. unfold getActiveSession. cbn [truthy].
    rewrite Hk. cbn [negb map_get]. now rewrite Hreg.
Qed.

Lemma registered_session_resolves_witness :
  let registry := activeSessions (snd (register CallSid 1 (JObj setup_message) fresh_world)) in
  getActiveSession registry CallSid
    (JObj [("Sid", JStr EmptyString); ("callSid", JStr "CA123456")]) None
  = Return (ASession 1)
  /\ getActiveSession registry SessionId JUndefined (Some "CA123456") = Return (ASession 1).
Proof.
  pose proof (registered_session_resolves CallSid 1 setup_message
                [("Sid", JStr EmptyString); ("callSid", JStr "CA123456")] "CA123456"
                fresh_world eq_refl) as H.
  refine (let H' := H _ eq_refl eq_refl eq_refl in
          conj (proj1 H') (proj2 H' SessionId JUndefined)).
  discriminate.
Defined.

Lemma by_callSid_answer m policy body a :
  by_callSid m policy body = Return (Some a) -> exists v, a = map_get m v.
Proof.
  unfold by_callSid. destruct policy; try discriminate.
  destruct (startsWith _ "CA") as [[|]|e]; cbn [and_then]; try discriminate.
  intros [= <-]. eauto.
Qed.

Lemma by_sessionId_answer m policy body a :
  by_sessionId m policy body = Return (Some a) -> exists v, a = map_get m v.
Proof.
  unfold by_sessionId. destruct policy; try discriminate.
  destruct (or_else _ _) as [chosen|e]; cbn [and_then]; [|discriminate].
  destruct (startsWith _ "VX") as [[|]|e]; cbn [and_then]; try discriminate.
  intros [= <-]. eauto.
Qed.

Lemma from_body_registered m policy body h :
  from_body m policy body = Return (ASession h) -> exists k, m !! k = Some h.
Proof.
  unfold from_body.
  destruct (by_callSid m policy body) as [[a|]|e] eqn:E1; cbn [and_then]; try discriminate.
  - intros [= ->]. destruct (by_callSid_answer _ _ _ _ E1) as [v Hv].
    eapply map_get_registered. symmetry. exact Hv.
  - destruct (by_sessionId m policy body) as [[a|]|e] eqn:E2; cbn [and_then];
      try discriminate.
    + intros [= ->]. destruct (by_sessionId_answer _ _ _ _ E2) as [v Hv].
      eapply map_get_registered. symmetry. exact Hv.
    + intros [= H]. unfold by_from in H.
      destruct (truthy _); [|discriminate]. eapply map_get_registered. exact H.
Qed.

(** X14.  The resolver never makes a session up: whatever the policy, the
    payload and the explicit key, a session it answers with is filed in
    the registry under some key. *)
Theorem resolved_session_is_registered (m : gmap string Handle) policy body sessionId h :
  getActiveSession m policy body sessionId = Return (ASession h) ->
  exists k, m !! k = Some h.
Proof.
  unfold getActiveSession. destruct sessionId as [k|].
  - destruct (truthy (JStr k)).
    + intros [= H]. exact (map_get_registered m (JStr k) h H).
    + apply from_body_registered.
  - apply from_body_registered.
Qed.

Lemma resolved_session_is_registered_witness :
  exists k, ({[ "CA1" := 7 ]} : gmap string Handle) !! k = Some 7.
Proof.
  exact (resolved_session_is_registered {[ "CA1" := 7 ]} CallSid
           (JObj [("Sid", JStr "CA1")]) None 7 eq_refl).
Defined.

(** X15.  Under policy [From] the resolver completes for every payload -
    absent, [null], not an object, holding values that are not strings -
    and every explicit key: a non-empty key is looked up, otherwise the
    first truthy of [From] and [from] is, and without one the answer is
    [null]. *)
Theorem from_policy_never_throws (m : gmap string Handle) body sessionId :
  getActiveSession m From body sessionId
  = Return (match sessionId with
            | Some k =>
                if negb (String.eqb k EmptyString) then map_get m (JStr k)
                else by_from m body
            | None => by_from m body
            end)
  /\ (nullish body = true -> by_from m body = ANull).
Proof.
  split.
  - unfold getActiveSession, from_body. cbn [by_callSid by_sessionId and_then truthy].
    destruct sessionId as [k|]; [|reflexivity].
    now destruct (negb (String.eqb k EmptyString)).
  - now destruct body.
Qed.

(** X16.  A payload whose first truthy identifier is not a string makes
    the resolver throw, under policy [CallSid] as under [SessionId]: only
    a string has [startsWith].  So a number sent as [CallSid] or
    [sessionId] ends in a type error, not in an absent result. *)
Theorem non_string_identifier_throws (m : gmap string Handle) o v :
  truthy v = true ->
  (forall s, v <> JStr s) ->
  (obj_get "CallSid" o = Some v ->
   exists message, getActiveSession m CallSid (JObj o) None = Throw (TypeError message))
  /\ (obj_get "sessionId" o = Some v ->
      exists message, getActiveSession m SessionId (JObj o) None = Throw (TypeError message)).
Proof.
  intros Htruthy Hnot.
  assert (Hstarts : forall p, startsWith v p = Throw (TypeError "startsWith is not a function")).
  { intros p. destruct v; try discriminate; try reflexivity. now destruct (Hnot s). }
  assert (Hnn : nullish v = false) by (destruct v; try discriminate; reflexivity).
  split; intros Hfield; eexists; unfold getActiveSession, from_body.
  - unfold by_callSid. cbn [opt_prop]. rewrite Hfield.
    unfold js_or. rewrite Htruthy. cbn iota. rewrite !Htruthy.
    unfold js_coalesce. rewrite Hnn, Hstarts. reflexivity.
  - cbn [by_callSid and_then]. unfold by_sessionId, or_else. cbn [opt_prop]. rewrite Hfield.
    unfold js_or. rewrite Htruthy. cbn iota. rewrite !Htruthy. cbn [and_then].
    unfold js_coalesce. rewrite Hnn, Hstarts. reflexivity.
Qed.

Lemma non_string_identifier_throws_witness :
  exists message,
    getActiveSession ∅ CallSid (JObj [("CallSid", JNum 12345)]) None
    = Throw (TypeError message).
Proof.
  refine (proj1 (non_string_identifier_throws ∅ [("CallSid", JNum 12345)] (JNum 12345)
                   eq_refl _) eq_refl).
  discriminate.
Defined.

(** ** What a frame can change *)

(** A rule for the listener: a relation between worlds that holds across
    every step the engine takes and every call into user code holds across
    the processing of a frame. *)
Section FrameRule.
Context (JSON_parse : string -> Completion JSValue).
Context {B : Behavior}.
Context (onInitialized : option (JSValue -> M World unit)) (data : string).
Context (R : World -> World -> Prop).
Hypothesis R_refl : forall w, R w w.
Hypothesis R_trans : forall w1 w2 w3, R w1 w2 -> R w2 w3 -> R w1 w3.
Hypothesis R_log : forall lv obj msg w, R w (snd (log lv obj msg w)).
Hypothesis R_init :
  forall o w, JSON_parse data = Return (JObj o) ->
              obj_get "type" o = Some (JStr "setup") -> R w (adopted o w).
Hypothesis R_registration :
  forall f o w, onInitialized = Some f ->
                JSON_parse data = Return (JObj o) ->
                obj_get "type" o = Some (JStr "setup") -> R w (snd (f (JObj o) w)).
Hypothesis R_setup : forall m w, R w (snd (handleSetup m w)).
Hypothesis R_prompt : forall m w, R w (snd (handlePrompt m w)).
Hypothesis R_interrupt : forall m w, R w (snd (handleInterrupt m w)).
Hypothesis R_dtmf : forall m w, R w (snd (handleDTMF m w)).
Hypothesis R_error : forall m w, R w (snd (handleError m w)).

Lemma invoke_rule c arg f (s : Engine) :
  (forall w, R w (snd (f w))) -> R (fst s) (fst (snd (invoke c arg f s))).
Proof.
  intros Hf. unfold invoke. specialize (Hf (fst s)).
  now destruct (f (fst s)).
Qed.

Lemma dispatch_rule message type (s : Engine) :
  JSON_parse data = Return message ->
  get_prop message "type" = Return type ->
  R (fst s) (fst (snd (dispatch onInitialized message type s))).
Proof.
  intros Hparse Htype. unfold dispatch.
  assert (Hunknown :
    R (fst s)
      (fst (snd (lift (log LWarn (obj_literal [("type", type)]) "Unknown message type") s)))).
  { unfold lift. cbn [log fst snd]. apply (R_log LWarn). }
  destruct type as [| | | |t| |]; try exact Hunknown.
  destruct (String.eqb t "setup") eqn:Es.
  - apply String.eqb_eq in Es. subst t.
    destruct message as [| | | | | |o]; try discriminate.
    assert (Ho : obj_get "type" o = Some (JStr "setup")).
    { cbn [get_prop] in Htype. destruct (obj_get "type" o); congruence. }
    unfold bind.
    destruct onInitialized as [f|] eqn:Ecb.
    + pose proof (R_registration f o (fst s) eq_refl Hparse Ho) as Hf.
      unfold invoke at 1.
      destruct (f (JObj o) (fst s)) as [[[]|e] w1]; cbn [fst snd] in Hf |- *; [|exact Hf].
      rewrite init_object. unfold invoke. cbn [fst snd].
      pose proof (R_setup (JObj o) (adopted o w1)) as Hh.
      destruct (handleSetup (JObj o) (adopted o w1)) as [r w3]. cbn [fst snd] in Hh |- *.
      eapply R_trans; [exact Hf|]. eapply R_trans; [|exact Hh]. now apply R_init.
    + unfold ret. destruct s as [w tr]. rewrite init_object. unfold invoke. cbn [fst snd].
      pose proof (R_setup (JObj o) (adopted o w)) as Hh.
      destruct (handleSetup (JObj o) (adopted o w)) as [r w3]. cbn [fst snd] in Hh |- *.
      eapply R_trans; [|exact Hh]. now apply R_init.
  - destruct (String.eqb t "prompt"); [now apply invoke_rule|].
    destruct (String.eqb t "interrupt"); [now apply invoke_rule|].
    destruct (String.eqb t "dtmf"); [now apply invoke_rule|].
    destruct (String.eqb t "error"); [now apply invoke_rule|].
    exact Hunknown.
Qed.

Lemma start_rule (s : Engine) :
  R (fst s) (fst (snd (start JSON_parse onInitialized data s))).
Proof.
  destruct s as [w tr]. unfold start, try_catch.
  assert (Hbody :
    R w (fst (snd ((message <- of_completion (JSON_parse data) ;;
                    type <- member message "type" ;;
                    lift (log LInfo (obj_literal [("messageType", type)]) "Received message") ;;
                    dispatch onInitialized message type) (w, tr))))).
  { unfold bind at 1. unfold of_completion at 1.
    case_eq (JSON_parse data); [intros message Hparse | intros e Hparse; apply R_refl].
    unfold bind at 1. unfold member, of_completion.
    destruct (get_prop message "type") as [type|e] eqn:Htype; [|apply R_refl].
    unfold bind, lift at 1. cbn [log fst snd].
    eapply R_trans; [apply (R_log LInfo (obj_literal [("messageType", type)]) "Received message")|].
    exact (dispatch_rule message type (_, tr) Hparse Htype). }
  match goal with
  | |- context [match ?b (w, tr) with _ => _ end] => destruct (b (w, tr)) as [[[]|e] [w' tr']]
  end; cbn [fst snd] in Hbody |- *; [exact Hbody|].
  unfold bind, of_completion. destruct (exn_message e) as [d|e']; cbn [fst snd].
  - unfold lift. cbn [log fst snd]. eapply R_trans; [exact Hbody|apply (R_log LError)].
  - exact Hbody.
Qed.
End FrameRule.

Lemma emit_rule {E : Type} (R : World -> World -> Prop) (listener : E -> M Engine unit) :
  (forall w, R w w) ->
  (forall w1 w2 w3, R w1 w2 -> R w2 w3 -> R w1 w3) ->
  (forall ev s, R (fst s) (fst (snd (listener ev s)))) ->
  forall events s, R (fst s) (fst (emit listener events s)).
Proof.
  intros Hrefl Htrans Hstep events.
  induction events as [|ev rest IH]; intros s; cbn [emit].
  - apply Hrefl.
  - eapply Htrans; [apply Hstep | apply IH].
Qed.

(** The base class methods write to the log and to nothing else. *)
Lemma base_class_keeps {X : Type} (part : World -> X) :
  (forall l w, part (with_logged l w) = part w) ->
  hooks_keep part ConversationRelaySession.
Proof.
  intros Hlog. unfold hooks_keep. cbn. repeat split; intros; apply Hlog.
Qed.

Section Frames.
Context (JSON_parse : string -> Completion JSValue).
Context {B : Behavior}.

Lemma close_rule (R : World -> World -> Prop) (s : Engine) :
  (forall w, R w (snd (handleClose w))) -> R (fst s) (fst (snd (close s))).
Proof.
  intros Hclose. unfold close, invoke. specialize (Hclose (fst s)).
  now destruct (handleClose (fst s)).
Qed.

(** X17.  The engine never writes to the connection by itself.  With
    behavior methods that leave the connection alone, no sequence of frames
    and close events delivered through the route sends anything or changes
    the connection's state - whatever the frames hold. *)
Theorem route_never_sends policy (this : Handle) (events : list Event) (s : Engine) :
  hooks_keep connection B ->
  connection (fst (emit (wsRoute JSON_parse policy this) events s)) = connection (fst s).
Proof.
  intros (Hsetup & Hprompt & Hinterrupt & Hdtmf & Herror & Hclose).
  apply (emit_rule (fun w w' => connection w' = connection w)); [reflexivity|congruence|].
  intros [data|] s'; unfold wsRoute, listeners.
  - apply (start_rule JSON_parse (Some (register policy this)) data
             (fun w w' => connection w' = connection w)); try assumption;
      try reflexivity; try congruence.
    intros f o w [= <-] _ _. now rewrite register_object.
  - now apply (close_rule (fun w w' => connection w' = connection w)).
Qed.

Lemma registry_extends_refl w : registry_extends w w.
Proof. now intros k. Qed.

Lemma registry_extends_trans w1 w2 w3 :
  registry_extends w1 w2 -> registry_extends w2 w3 -> registry_extends w1 w3.
Proof. intros H12 H23 k Hk. now apply H23, H12. Qed.

Lemma registry_extends_same w w' :
  activeSessions w' = activeSessions w -> registry_extends w w'.
Proof. intros Heq k. now rewrite Heq. Qed.

(** X18.  Nothing the route does takes a session out of the registry.  With
    behavior methods that leave the registry alone, after any sequence of
    frames and close events every key that was filed is still filed, and a
    close event leaves the registry exactly as it was: the entry of a
    closed connection stays. *)
Theorem registry_never_shrinks policy (this : Handle) (events : list Event) (s : Engine) :
  hooks_keep activeSessions B ->
  registry_extends (fst s) (fst (emit (wsRoute JSON_parse policy this) events s))
  /\ activeSessions (fst (emit (wsRoute JSON_parse policy this) [CloseEvent] s))
     = activeSessions (fst s).
Proof.
  intros (Hsetup & Hprompt & Hinterrupt & Hdtmf & Herror & Hclose). split.
  - apply (emit_rule registry_extends);
      [apply registry_extends_refl | apply registry_extends_trans |].
    intros [data|] s'; unfold wsRoute, listeners.
    + apply (start_rule JSON_parse (Some (register policy this)) data registry_extends).
      * apply registry_extends_refl.
      * apply registry_extends_trans.
      * intros lv obj msg w. now apply registry_extends_same.
      * intros o w _ _. now apply registry_extends_same.
      * intros f o w [= <-] _ _. rewrite register_object. intros k Hk.
        cbn [snd activeSessions with_activeSessions].
        destruct (decide (registration_key policy o = k)) as [->|Hne].
        -- rewrite lookup_insert_eq. eauto.
        -- now rewrite lookup_insert_ne.
      * intros m w. now apply registry_extends_same.
      * intros m w. now apply registry_extends_same.
      * intros m w. now apply registry_extends_same.
      * intros m w. now apply registry_extends_same.
      * intros m w. now apply registry_extends_same.
    + apply (close_rule registry_extends). intros w. now apply registry_extends_same.
  - cbn [emit wsRoute listeners].
    now apply (close_rule (fun w w' => activeSessions w' = activeSessions w)).
Qed.

(** X19.  Only a setup frame changes the session record.  With behavior
    methods that leave the record alone, a frame that does not parse to an
    object of type [setup] - malformed, of another type, of no type - leaves
    the record as it was, whatever function was passed to [start]. *)
Theorem only_setup_changes_session onInitialized data (s : Engine) :
  hooks_keep session B ->
  (forall o, JSON_parse data = Return (JObj o) -> obj_get "type" o <> Some (JStr "setup")) ->
  session (fst (snd (start JSON_parse onInitialized data s))) = session (fst s).
Proof.
  intros (Hsetup & Hprompt & Hinterrupt & Hdtmf & Herror & Hclose) Hnot.
  apply (start_rule JSON_parse onInitialized data (fun w w' => session w' = session w));
    try assumption; try reflexivity; try congruence.
  - intros o w Hparse Htype. now destruct (Hnot o Hparse).
  - intros f o w _ Hparse Htype. now destruct (Hnot o Hparse).
Qed.
End Frames.

Lemma route_never_sends_witness :
  connection
    (fst (emit (wsRoute (B := ConversationRelaySession) parse_json CallSid 1)
            [MessageEvent (frame (JObj setup_message));
             MessageEvent (frame (JObj prompt_message));
             MessageEvent "invalid json"; CloseEvent]
            fresh_engine))
  = open_connection.
Proof.
  exact (route_never_sends parse_json (B := ConversationRelaySession) CallSid 1
           [MessageEvent (frame (JObj setup_message));
            MessageEvent (frame (JObj prompt_message));
            MessageEvent "invalid json"; CloseEvent]
           fresh_engine (base_class_keeps connection (fun _ _ => eq_refl))).
Defined.

Lemma registry_never_shrinks_witness :
  let s := emit (wsRoute (B := ConversationRelaySession) parse_json CallSid 1)
             [MessageEvent (frame (JObj setup_message))] fresh_engine in
  activeSessions (fst (emit (wsRoute (B := ConversationRelaySession) parse_json CallSid 1)
                         [CloseEvent] s))
  = activeSessions (fst s).
Proof.
  exact (proj2 (registry_never_shrinks parse_json (B := ConversationRelaySession) CallSid 1
                  [CloseEvent]
                  (emit (wsRoute (B := ConversationRelaySession) parse_json CallSid 1)
                     [MessageEvent (frame (JObj setup_message))] fresh_engine)
                  (base_class_keeps activeSessions (fun _ _ => eq_refl)))).
Defined.

Lemma only_setup_changes_session_witness :
  session (fst (snd (start (B := ConversationRelaySession) parse_json None
                       (frame (JObj prompt_message)) fresh_engine)))
  = session fresh_world.
Proof.
  refine (only_setup_changes_session parse_json (B := ConversationRelaySession) None
            (frame (JObj prompt_message)) fresh_engine
            (base_class_keeps session (fun _ _ => eq_refl)) _).
  intros o [= <-]. discriminate.
Defined.

(** ** The base class on the route *)

Section BaseClass.
Context (JSON_parse : string -> Completion JSValue).



(** X21.  What a [prompt], [interrupt], [dtmf] or [error] frame does to a
    session of the base class: the method of its type is called, and two
    lines are logged - [Received message], then the trace with the message
    as JSON, at debug level, at error level for an [error] frame; nothing
    else changes. *)
Theorem base_class_frame onInitialized data message t c lv what (w : World) tr :
  JSON_parse data = Return message ->
  get_prop message "type" = Return (JStr t) ->
  In (t, c, lv, what) base_class_lines ->
  start (B := ConversationRelaySession) JSON_parse onInitialized data (w, tr)
  = (Return tt,
     (with_logged
        (logged w
           ++ [{| level := LInfo; bindings := logger w;
                  merging := [("messageType", JStr t)];
                  text := "Received message" |};
               {| level := lv; bindings := logger w; merging := [];
                  text := "Handling " +:+ what +:+ " message: "
                            +:+ template_hole (JSON_stringify message) |}])%list
        w,
      (tr ++ [call c message])%list)).
Proof.
  intros Hparse Htype Hin. unfold start. apply catch_passes.
  rewrite (try_block_parsed JSON_parse onInitialized data message (JStr t) w tr Hparse Htype).
  unfold base_class_lines in Hin. simpl in Hin.
  destruct Hin as [H|[H|[H|[H|[]]]]]; injection H as <- <- <- <-;
    unfold dispatch; cbn; now rewrite <- app_assoc.
Qed.
End BaseClass.


Lemma base_class_frame_witness :
  snd (snd (start (B := ConversationRelaySession) parse_json None
              (frame (JObj prompt_message)) fresh_engine))
  = [call HandlePrompt (JObj prompt_message)].
Proof.
  exact (f_equal (fun r => snd (snd r))
           (base_class_frame parse_json None (frame (JObj prompt_message))
              (JObj prompt_message) "prompt" HandlePrompt LDebug "prompt" fresh_world []
              eq_refl eq_refl (or_introl eq_refl))).
Defined.


Lemma from_policy_never_throws_witness :
  getActiveSession {[ "+1" := 4 ]} From JUndefined None = Return ANull.
Proof.
  pose proof (from_policy_never_throws {[ "+1" := 4 ]} JUndefined None) as H.
  exact (eq_trans (proj1 H) (f_equal Return (proj2 H eq_refl))).
Defined.

(** ** Frames that arrive apart, frames that arrive together *)


Section Arrival.
Context (JSON_parse : string -> Completion JSValue).
Context {B : Behavior}.
Implicit Types (onInitialized : option (JSValue -> M World unit)).





End Arrival.


(** ** A second setup frame *)

Section Reinitialization.
Context (JSON_parse : string -> Completion JSValue).




End Reinitialization.

